(** * Solar tracker simulator: sun position, panel pose and incidence metrics

    A shallow embedding of the numeric core of
    [solar-tracker/src/components/SolarTrackerSimulator.tsx]: [normalizeAngle],
    [calculateSunPosition], [getPanelNormal], the two angles computed by
    [PanelAssembly] and the figures computed by [Metrics].

    Numbers.  A JavaScript number is modelled by [JS.number]: [NaN], the two
    infinities, or a finite value carried as a real.  Arithmetic on finite
    values is exact: rounding to binary64, overflow and the sign of zero are
    not represented.  [NaN] and the infinities are kept because the control
    flow of the source depends on them (comparisons with [NaN] are false,
    [x || 0] replaces [NaN], [Math.acos] answers [NaN] outside [-1,1]).
    Two things follow.  The cosine of the zenith computed from three finite
    angles never exceeds 1 here, while in binary64 it can come out as
    [1.0000000000000002]; what line 160 does with such a value is therefore
    stated on [sunFromCosZenith], which takes the cosine as an argument.
    And a finite value never overflows here, so a statement that promises a
    finite result bounds its inputs.

    Dates.  [new Date(s)] is modelled for the ECMAScript date-time format
    [YYYY-MM-DDTHH:mm:ss] without offset, which is read as local time of the
    host; the host's zone is an explicit parameter, a fixed offset in minutes
    east of UTC, so a zone with daylight-saving transitions is not
    represented.  Any other string gives the invalid date here, whose
    getters answer [NaN]; an engine may read some of those strings with a
    parser of its own, so the statements about an unreadable stamp take the
    stamp of a cleared time field, [YYYY-MM-DDT:00]. *)

From Stdlib Require Import Reals ZArith Lia Lra Psatz Bool List.
From Stdlib Require Import Ascii String.

Set Implicit Arguments.

(* ================================================================= *)
(** ** JavaScript numbers *)

Module JS.

Local Open Scope R_scope.

Inductive number : Type :=
| NaN : number
| PInf : number
| NInf : number
| Fin (r : R) : number.

Definition Rltb (a b : R) : bool := if Rlt_dec a b then true else false.
Definition Reqb (a b : R) : bool := if Req_dec_T a b then true else false.

(** Largest integer below or equal to [r], and rounding toward zero. *)
Definition floorZ (r : R) : Z := Int_part r.
Definition truncZ (r : R) : Z :=
  if Rltb r 0 then (- floorZ (- r))%Z else floorZ r.

Definition neg (x : number) : number :=
  match x with
  | NaN => NaN
  | PInf => NInf
  | NInf => PInf
  | Fin a => Fin (- a)
  end.

Definition add (x y : number) : number :=
  match x, y with
  | NaN, _ | _, NaN => NaN
  | PInf, NInf | NInf, PInf => NaN
  | PInf, _ | _, PInf => PInf
  | NInf, _ | _, NInf => NInf
  | Fin a, Fin b => Fin (a + b)
  end.

Definition sub (x y : number) : number := add x (neg y).

(** An infinity scaled by the finite value [a]. *)
Definition scaleInf (positive : bool) (a : R) : number :=
  if Reqb a 0 then NaN
  else if Bool.eqb positive (Rltb 0 a) then PInf else NInf.

Definition mul (x y : number) : number :=
  match x, y with
  | NaN, _ | _, NaN => NaN
  | PInf, PInf | NInf, NInf => PInf
  | PInf, NInf | NInf, PInf => NInf
  | PInf, Fin a | Fin a, PInf => scaleInf true a
  | NInf, Fin a | Fin a, NInf => scaleInf false a
  | Fin a, Fin b => Fin (a * b)
  end.

(** Division.  A zero divisor is taken as [+0]. *)
Definition div (x y : number) : number :=
  match x, y with
  | NaN, _ | _, NaN => NaN
  | PInf, PInf | PInf, NInf | NInf, PInf | NInf, NInf => NaN
  | PInf, Fin b => if Rltb b 0 then NInf else PInf
  | NInf, Fin b => if Rltb b 0 then PInf else NInf
  | Fin _, PInf | Fin _, NInf => Fin 0
  | Fin a, Fin b =>
      if Reqb b 0 then
        (if Reqb a 0 then NaN else if Rltb 0 a then PInf else NInf)
      else Fin (a / b)
  end.

(** The [%] operator: the remainder has the sign of the dividend. *)
Definition rem (x y : number) : number :=
  match x, y with
  | NaN, _ | _, NaN => NaN
  | PInf, _ | NInf, _ => NaN
  | Fin a, PInf | Fin a, NInf => Fin a
  | Fin a, Fin b =>
      if Reqb b 0 then NaN else Fin (a - b * IZR (truncZ (a / b)))
  end.

(** [x < y]; false as soon as one side is [NaN]. *)
Definition lt (x y : number) : bool :=
  match x, y with
  | NaN, _ | _, NaN => false
  | _, NInf => false
  | NInf, _ => true
  | PInf, _ => false
  | Fin _, PInf => true
  | Fin a, Fin b => Rltb a b
  end.

Definition gt (x y : number) : bool := lt y x.

(** [x || y] on numbers: [y] when [x] is falsy, that is [NaN] or zero. *)
Definition orElse (x y : number) : number :=
  match x with
  | NaN => y
  | Fin a => if Reqb a 0 then y else x
  | _ => x
  end.

Definition isNaN (x : number) : bool :=
  match x with NaN => true | _ => false end.

Definition isFinite (x : number) : bool :=
  match x with Fin _ => true | _ => false end.

(** *** The [Math] object *)

Definition Math_PI : number := Fin PI.

Definition Math_floor (x : number) : number :=
  match x with
  | Fin a => Fin (IZR (floorZ a))
  | _ => x
  end.

Definition Math_abs (x : number) : number :=
  match x with
  | NaN => NaN
  | PInf | NInf => PInf
  | Fin a => Fin (Rabs a)
  end.

Definition Math_max (x y : number) : number :=
  match x, y with
  | NaN, _ | _, NaN => NaN
  | _, _ => if lt x y then y else x
  end.

Definition Math_min (x y : number) : number :=
  match x, y with
  | NaN, _ | _, NaN => NaN
  | _, _ => if lt y x then y else x
  end.

Definition Math_sqrt (x : number) : number :=
  match x with
  | NaN | NInf => NaN
  | PInf => PInf
  | Fin a => if Rltb a 0 then NaN else Fin (sqrt a)
  end.

Definition Math_sin (x : number) : number :=
  match x with Fin a => Fin (sin a) | _ => NaN end.

Definition Math_cos (x : number) : number :=
  match x with Fin a => Fin (cos a) | _ => NaN end.

Definition Math_tan (x : number) : number :=
  match x with Fin a => Fin (tan a) | _ => NaN end.

(** [Math.asin] and [Math.acos] answer [NaN] outside [-1,1]. *)
Definition inUnit (a : R) : bool := negb (Rltb a (-1)) && negb (Rltb 1 a).

Definition Math_asin (x : number) : number :=
  match x with
  | Fin a => if inUnit a then Fin (asin a) else NaN
  | _ => NaN
  end.

Definition Math_acos (x : number) : number :=
  match x with
  | Fin a => if inUnit a then Fin (acos a) else NaN
  | _ => NaN
  end.

End JS.

Export JS.

Coercion Fin : R >-> number.

Declare Scope js_scope.
Delimit Scope js_scope with js.
Bind Scope js_scope with number.
Infix "+" := add : js_scope.
Infix "-" := sub : js_scope.
Infix "*" := mul : js_scope.
Infix "/" := div : js_scope.
Infix "%%" := rem (at level 40, left associativity) : js_scope.
Infix "<?" := lt (at level 70, no associativity) : js_scope.
Infix ">?" := gt (at level 70, no associativity) : js_scope.
Infix "||" := orElse (at level 50, left associativity) : js_scope.

(* ================================================================= *)
(** ** The built-in [Date] *)

(** A [Date] holds a time value: milliseconds since the epoch in UTC, or
    nothing for the invalid date.  The host's local zone is the parameter
    [tz], its offset from UTC in minutes (positive east of Greenwich). *)

Module JSDate.

Local Open Scope Z_scope.

Definition msPerMinute : Z := 60000.
Definition msPerHour : Z := 3600000.
Definition msPerDay : Z := 86400000.

Definition Date : Type := option Z.

(** Days since 1970-01-01 of a proleptic Gregorian date, and back. *)
Definition daysFromCivil (y m d : Z) : Z :=
  let y' := if m <=? 2 then y - 1 else y in
  let era := y' / 400 in
  let yoe := y' - era * 400 in
  let mp := if 2 <? m then m - 3 else m + 9 in
  let doy := (153 * mp + 2) / 5 + d - 1 in
  let doe := yoe * 365 + yoe / 4 - yoe / 100 + doy in
  era * 146097 + doe - 719468.

Definition civilFromDays (z : Z) : Z * Z * Z :=
  let z' := z + 719468 in
  let era := z' / 146097 in
  let doe := z' - era * 146097 in
  let yoe := (doe - doe / 1460 + doe / 36524 - doe / 146096) / 365 in
  let doy := doe - (365 * yoe + yoe / 4 - yoe / 100) in
  let mp := (5 * doy + 2) / 153 in
  let d := doy - (153 * mp + 2) / 5 + 1 in
  let m := if mp <? 10 then mp + 3 else mp - 9 in
  ((if m <=? 2 then yoe + era * 400 + 1 else yoe + era * 400), m, d).

Definition isLeap (y : Z) : bool :=
  ((y mod 4 =? 0) && negb (y mod 100 =? 0)) || (y mod 400 =? 0).

Definition daysInMonth (y m : Z) : Z :=
  if m =? 2 then (if isLeap y then 29 else 28)
  else if (m =? 4) || (m =? 6) || (m =? 9) || (m =? 11) then 30
  else 31.

(** *** Reading the date-time format *)

Definition digit (c : ascii) : option Z :=
  let n := Z.of_nat (nat_of_ascii c) in
  if (48 <=? n) && (n <=? 57) then Some (n - 48) else None.

Fixpoint digits (acc : Z) (cs : list ascii) : option Z :=
  match cs with
  | nil => Some acc
  | c :: cs' =>
      match digit c with
      | Some n => digits (10 * acc + n) cs'
      | None => None
      end
  end.

Definition isChar (c : ascii) (s : string) : bool :=
  match s with
  | String c' EmptyString => Ascii.eqb c c'
  | _ => false
  end.

Record Fields : Type := mkFields {
  f_year : Z; f_month : Z; f_day : Z;
  f_hour : Z; f_minute : Z; f_second : Z
}.

Definition validFields (f : Fields) : bool :=
  (1 <=? f_month f) && (f_month f <=? 12) &&
  (1 <=? f_day f) && (f_day f <=? daysInMonth (f_year f) (f_month f)) &&
  (f_hour f <=? 24) && (f_minute f <=? 59) && (f_second f <=? 59) &&
  ((f_hour f <? 24) || ((f_minute f =? 0) && (f_second f =? 0))).

(** [YYYY-MM-DDTHH:mm:ss], nothing else. *)
Definition parseDateTime (s : string) : option Fields :=
  match list_ascii_of_string s with
  | y1 :: y2 :: y3 :: y4 :: p1 :: m1 :: m2 :: p2 :: d1 :: d2 :: t ::
    h1 :: h2 :: q1 :: i1 :: i2 :: q2 :: s1 :: s2 :: nil =>
      if isChar p1 "-" && isChar p2 "-" && isChar t "T" &&
         isChar q1 ":" && isChar q2 ":"
      then
        match digits 0 (y1 :: y2 :: y3 :: y4 :: nil), digits 0 (m1 :: m2 :: nil),
              digits 0 (d1 :: d2 :: nil), digits 0 (h1 :: h2 :: nil),
              digits 0 (i1 :: i2 :: nil), digits 0 (s1 :: s2 :: nil) with
        | Some y, Some m, Some d, Some h, Some i, Some sec =>
            let f := mkFields y m d h i sec in
            if validFields f then Some f else None
        | _, _, _, _, _, _ => None
        end
      else None
  | _ => None
  end.

(** The time value of fields read as local time of the host. *)
Definition localTimeValue (f : Fields) : Z :=
  daysFromCivil (f_year f) (f_month f) (f_day f) * msPerDay
  + f_hour f * msPerHour + f_minute f * msPerMinute + f_second f * 1000.

Definition TimeClip (t : Z) : Date :=
  if Z.abs t <=? 8640000000000000 then Some t else None.

(** [new Date(s)] for a date-time string without offset. *)
Definition newDate (tz : Z) (s : string) : Date :=
  match parseDateTime s with
  | Some f => TimeClip (localTimeValue f - tz * msPerMinute)
  | None => None
  end.

(** *** Getters *)

Definition LocalTime (tz : Z) (t : Z) : Z := t + tz * msPerMinute.

Definition YearFromTime (t : Z) : Z := fst (fst (civilFromDays (t / msPerDay))).
Definition MonthFromTime (t : Z) : Z := snd (fst (civilFromDays (t / msPerDay))) - 1.
Definition DateFromTime (t : Z) : Z := snd (civilFromDays (t / msPerDay)).
Definition HourFromTime (t : Z) : Z := (t / msPerHour) mod 24.
Definition MinFromTime (t : Z) : Z := (t / msPerMinute) mod 60.
Definition SecFromTime (t : Z) : Z := (t / 1000) mod 60.

Definition getter (f : Z -> Z) (d : Date) : number :=
  match d with
  | Some t => Fin (IZR (f t))
  | None => NaN
  end.

Definition getHours (tz : Z) : Date -> number :=
  getter (fun t => HourFromTime (LocalTime tz t)).
Definition getMinutes (tz : Z) : Date -> number :=
  getter (fun t => MinFromTime (LocalTime tz t)).
Definition getSeconds (tz : Z) : Date -> number :=
  getter (fun t => SecFromTime (LocalTime tz t)).
Definition getUTCFullYear : Date -> number := getter YearFromTime.
Definition getUTCMonth : Date -> number := getter MonthFromTime.
Definition getUTCDate : Date -> number := getter DateFromTime.
Definition getUTCHours : Date -> number := getter HourFromTime.
Definition getUTCMinutes : Date -> number := getter MinFromTime.

End JSDate.

Export JSDate.

(* ================================================================= *)
(** ** [THREE.Vector3] *)

Module THREE.

Local Open Scope R_scope.
Local Open Scope js_scope.

Record Vector3 : Type := mkVector3 { vx : number; vy : number; vz : number }.

Definition length (v : Vector3) : number :=
  Math_sqrt (vx v * vx v + vy v * vy v + vz v * vz v).

Definition multiplyScalar (v : Vector3) (s : number) : Vector3 :=
  mkVector3 (vx v * s) (vy v * s) (vz v * s).

Definition divideScalar (v : Vector3) (s : number) : Vector3 :=
  multiplyScalar v (1 / s).

Definition normalize (v : Vector3) : Vector3 :=
  divideScalar v (length v || 1).

Definition dot (v w : Vector3) : number :=
  vx v * vx w + vy v * vy w + vz v * vz w.

End THREE.

Export THREE.

(* ================================================================= *)
(** ** The simulator's functions *)

Local Open Scope string_scope.
Local Open Scope R_scope.
Local Open Scope js_scope.

Inductive TrackingMode : Type := auto | manual.

Record SolarState : Type := mkSolarState {
  latitude : number;
  longitude : number;
  utcOffset : number;
  date : string;
  time : string;
  trackingMode : TrackingMode;
  manualPitch : number;
  manualYaw : number;
  panelWidth : number;
  panelHeight : number;
  panelElevation : number;
  albedo : number
}.

Record SunPosition : Type := mkSunPosition {
  azimuth : number;
  elevation : number;
  vector : Vector3
}.

Definition degToRad (deg : number) : number := (deg * Math_PI) / 180.
Definition radToDeg (rad : number) : number := (rad * 180) / Math_PI.

Definition normalizeAngle (angle : number) : number :=
  let normalized := angle %% 360 in
  if normalized <? 0 then normalized + 360 else normalized.

(** *** [calculateSunPosition], by blocks of the source *)

(** Lines 53-54: minutes of the day, from the local getters. *)
Definition totalMinutesOf (tz : Z) (dateTime : Date) : number :=
  getHours tz dateTime * 60 + getMinutes tz dateTime
  + getSeconds tz dateTime / 60.

(** Lines 56-70: Julian Day Number, from the UTC getters. *)
Definition julianDayOf (dateTime : Date) : number :=
  let year := getUTCFullYear dateTime in
  let month := getUTCMonth dateTime + 1 in
  let day := getUTCDate dateTime in
  let A := Math_floor ((14 - month) / 12) in
  let Y := year + 4800 - A in
  let M := month + 12 * A - 3 in
  day +
  Math_floor ((153 * M + 2) / 5) +
  365 * Y +
  Math_floor (Y / 4) -
  Math_floor (Y / 100) +
  Math_floor (Y / 400) -
  32045.

(** Lines 72-75. *)
Definition julianDayWithTimeOf (dateTime : Date) (utcOffset : number) : number :=
  julianDayOf dateTime +
  (getUTCHours dateTime - utcOffset + getUTCMinutes dateTime / 60) / 24 -
  0.5.

(** Lines 78-144: every constant of this block depends on [julianCentury]
    alone. *)
Section Ephemeris.

Variable julianCentury : number.

Definition geomMeanLongSun : number :=
  normalizeAngle
    (280.46646 + julianCentury * (36000.76983 + 0.0003032 * julianCentury))
  || 0.

Definition geomMeanAnomSun : number :=
  357.52911 + julianCentury * (35999.05029 - 0.0001537 * julianCentury).

Definition eccentEarthOrbit : number :=
  0.016708634 -
  julianCentury * (0.000042037 + 0.0000001267 * julianCentury).

Definition sunEqOfCenter : number :=
  Math_sin (degToRad geomMeanAnomSun) *
    (1.914602 - julianCentury * (0.004817 + 0.000014 * julianCentury)) +
  Math_sin (degToRad (2 * geomMeanAnomSun)) *
    (0.019993 - 0.000101 * julianCentury) +
  Math_sin (degToRad (3 * geomMeanAnomSun)) * 0.000289.

Definition sunTrueLong : number := geomMeanLongSun + sunEqOfCenter.

Definition sunAppLong : number :=
  sunTrueLong -
  0.00569 -
  0.00478 * Math_sin (degToRad (125.04 - 1934.136 * julianCentury)).

Definition meanObliqEcliptic : number :=
  23 +
  (26 +
    (21.448 -
      julianCentury *
        (46.815 + julianCentury * (0.00059 - julianCentury * 0.001813)))) /
    60.

Definition obliqCorr : number :=
  meanObliqEcliptic +
  0.00256 *
    Math_cos (degToRad (125.04 - 1934.136 * julianCentury)).

Definition sunDeclination : number :=
  radToDeg
    (Math_asin
      (Math_sin (degToRad obliqCorr) * Math_sin (degToRad sunAppLong))).

Definition varY : number :=
  Math_tan (degToRad (obliqCorr / 2)) *
  Math_tan (degToRad (obliqCorr / 2)).

Definition eqOfTime : number :=
  4 *
  radToDeg
    (varY * Math_sin (2 * degToRad geomMeanLongSun) -
      2 * eccentEarthOrbit * Math_sin (degToRad geomMeanAnomSun) +
      4 *
        eccentEarthOrbit *
        varY *
        Math_sin (degToRad geomMeanAnomSun) *
        Math_cos (2 * degToRad geomMeanLongSun) -
      0.5 *
        varY *
        varY *
        Math_sin (4 * degToRad geomMeanLongSun) -
      1.25 *
        eccentEarthOrbit *
        eccentEarthOrbit *
        Math_sin (2 * degToRad geomMeanAnomSun)).

End Ephemeris.

(** Line 148: true solar time wrapped into a day. *)
Definition wrapSolarTime (trueSolarTime : number) : number :=
  ((trueSolarTime %% 1440) + 1440) %% 1440.

(** Lines 150-151. *)
Definition hourAngleOf (trueSolarTime : number) : number :=
  let hourAngle := trueSolarTime / 4 - 180 in
  if hourAngle <? -180 then hourAngle + 360 else hourAngle.

(** Lines 157-159. *)
Definition cosZenithOf (latRad declRad haRad : number) : number :=
  Math_sin latRad * Math_sin declRad +
  Math_cos latRad * Math_cos declRad * Math_cos haRad.

(** Line 160. *)
Definition zenithOf (cosZenith : number) : number :=
  Math_min (Math_acos (Math_max cosZenith (-1))) Math_PI.

(** Lines 163-164. *)
Definition azDenominatorOf (latRad zenith : number) : number :=
  Math_cos latRad * Math_sin zenith.

(** Lines 165-182. *)
Definition azimuthOf (latRad declRad haRad zenith : number) : number :=
  let azDenominator := azDenominatorOf latRad zenith in
  if Math_abs azDenominator >? 0.001 then
    let azRad :=
      Math_acos
        (Math_min
          (Math_max
            ((Math_sin latRad * Math_cos zenith -
              Math_sin declRad) /
              azDenominator)
            (-1))
          1) in
    let azRad := if Math_sin haRad >? 0 then 2 * Math_PI - azRad else azRad in
    normalizeAngle (radToDeg azRad)
  else 0.

(** Lines 188-192, also used by [getPanelNormal] (lines 207-211). *)
Definition directionOf (yawRad pitchRad : number) : Vector3 :=
  normalize
    (mkVector3
      (Math_sin yawRad * Math_cos pitchRad)
      (Math_sin pitchRad)
      (Math_cos yawRad * Math_cos pitchRad)).

(** Lines 46-155: the hour angle, the latitude and the declination, in
    radians. *)
Definition solarAngles (tz : Z) (state : SolarState)
  : number * number * number :=
  let dateTime := newDate tz (date state ++ "T" ++ time state ++ ":00") in
  let utcOffset := utcOffset state in
  let timeZone := utcOffset in
  let longitude := longitude state in
  let latitude := latitude state in
  let totalMinutes := totalMinutesOf tz dateTime in
  let julianDayWithTime := julianDayWithTimeOf dateTime utcOffset in
  let julianCentury := (julianDayWithTime - 2451545) / 36525 in
  let sunDeclination := sunDeclination julianCentury in
  let eqOfTime := eqOfTime julianCentury in
  let trueSolarTime :=
    totalMinutes + eqOfTime + 4 * longitude - 60 * timeZone in
  let trueSolarTime := wrapSolarTime trueSolarTime in
  let hourAngle := hourAngleOf trueSolarTime in
  let haRad := degToRad hourAngle in
  let latRad := degToRad latitude in
  let declRad := degToRad sunDeclination in
  (haRad, latRad, declRad).

(** Lines 160-198: from the cosine of the zenith to the sun position. *)
Definition sunFromCosZenith (haRad latRad declRad cosZenith : number)
  : SunPosition :=
  let zenith := zenithOf cosZenith in
  let elevation := 90 - radToDeg zenith in
  let azimuth := azimuthOf latRad declRad haRad zenith in
  let elevationClamped := Math_max elevation (-5) in
  let elevationRad := degToRad elevationClamped in
  let azimuthRad := degToRad azimuth in
  let sunVector := directionOf azimuthRad elevationRad in
  {| azimuth := azimuth; elevation := elevationClamped; vector := sunVector |}.

(** Lines 157-198: zenith, elevation, azimuth and the direction vector. *)
Definition sunFromAngles (haRad latRad declRad : number) : SunPosition :=
  let cosZenith := cosZenithOf latRad declRad haRad in
  sunFromCosZenith haRad latRad declRad cosZenith.

Definition calculateSunPosition (tz : Z) (state : SolarState) : SunPosition :=
  let '(haRad, latRad, declRad) := solarAngles tz state in
  sunFromAngles haRad latRad declRad.

(** *** [getPanelNormal] *)

Record PanelNormal : Type := mkPanelNormal {
  panel_vector : Vector3;
  pitch : number;
  yaw : number
}.

Definition getPanelNormal (state : SolarState) (sun : SunPosition) : PanelNormal :=
  let pitch :=
    match trackingMode state with
    | auto => elevation sun
    | manual => manualPitch state
    end in
  let yaw :=
    match trackingMode state with
    | auto => azimuth sun
    | manual => manualYaw state
    end in
  let pitchRad := degToRad pitch in
  let yawRad := degToRad yaw in
  let vector := directionOf yawRad pitchRad in
  {| panel_vector := vector; pitch := pitch; yaw := yaw |}.

(** *** [PanelAssembly]: the two rotation angles (lines 229-231) *)

Record PanelAngles : Type := mkPanelAngles {
  pa_yawRad : number;
  pa_pitchClamped : number;
  pa_pitchRad : number
}.

Definition PanelAssembly (pitch yaw : number) : PanelAngles :=
  let yawRad := degToRad (normalizeAngle yaw) in
  let pitchClamped := Math_min (Math_max pitch 0) 90 in
  let pitchRad := degToRad pitchClamped in
  {| pa_yawRad := yawRad; pa_pitchClamped := pitchClamped;
     pa_pitchRad := pitchRad |}.

(** *** [Metrics]: the figures computed before rendering (lines 328-331) *)

Record MetricsValues : Type := mkMetricsValues {
  angleDeg : number;
  effectiveIrradiance : number
}.

Definition Metrics (sun : SunPosition) (panelNormal : Vector3) : MetricsValues :=
  let dot := dot (vector sun) panelNormal in
  let angle := Math_acos (Math_min (Math_max dot (-1)) 1) in
  let angleDeg := radToDeg angle in
  let effectiveIrradiance := Math_max 0 (Math_cos angle) in
  {| angleDeg := angleDeg; effectiveIrradiance := effectiveIrradiance |}.

(** *** [SolarTrackerSimulator]: the values derived from the state
    (lines 389-392, 619, 634 and 645-651) *)

Record Scene : Type := mkScene {
  scene_sun : SunPosition;
  scene_panel : PanelNormal;
  scene_sunPosition : Vector3;
  scene_skyAzimuth : number;
  scene_angles : PanelAngles;
  scene_metrics : MetricsValues
}.

Definition SolarTrackerSimulator (tz : Z) (state : SolarState) : Scene :=
  let sun := calculateSunPosition tz state in
  let panel := getPanelNormal state sun in
  let sunPosition := multiplyScalar (vector sun) 20 in
  {| scene_sun := sun;
     scene_panel := panel;
     scene_sunPosition := sunPosition;
     scene_skyAzimuth := (azimuth sun %% 360) / 360;
     scene_angles := PanelAssembly (pitch panel) (yaw panel);
     scene_metrics := Metrics sun (panel_vector panel) |}.


(* ================================================================= *)
(** ** Vocabulary of the statements *)

(** The remainder of [%] for a positive divisor. *)
Definition remR (a b : R) : R := (a - b * IZR (truncZ (a / b)))%R.

(** The floor-modulo of a real by a positive one. *)
Definition floorMod (a b : R) : R := (a - b * IZR (floorZ (a / b)))%R.

(** A finite value, neither [NaN] nor an infinity. *)
Definition finite (x : number) : Prop := exists r : R, x = Fin r.

(** The integer computation that lines 60-70 perform on numbers. *)
Definition julianDayNumberZ (year month day : Z) : Z :=
  let A := ((14 - month) / 12)%Z in
  let Y := (year + 4800 - A)%Z in
  let M := (month + 12 * A - 3)%Z in
  (day + (153 * M + 2) / 5 + 365 * Y + Y / 4 - Y / 100 + Y / 400 - 32045)%Z.

(** Finite coordinates and offset, and a date and time the host can read. *)
Definition validInput (tz : Z) (state : SolarState) : Prop :=
  finite (latitude state) /\
  finite (longitude state) /\
  finite (utcOffset state) /\
  newDate tz (date state ++ "T" ++ time state ++ ":00") <> None.

(** A value of the date field: [YYYY-MM-DD], a day of the calendar. *)
Definition dateValue (s : string) : Prop :=
  exists f, parseDateTime (s ++ "T00:00:00") = Some f.

(** [Vector3.negate]. *)
Definition negate (v : Vector3) : Vector3 :=
  mkVector3 (neg (vx v)) (neg (vy v)) (neg (vz v)).

(** Finite components of squared norm 1. *)
Definition unitVector (v : Vector3) : Prop :=
  exists x y z : R,
    v = mkVector3 (Fin x) (Fin y) (Fin z) /\ (x * x + y * y + z * z = 1)%R.

(* ================================================================= *)
(** ** Sample inputs *)

(** The default state of the component, fixed at the solstice. *)
Definition parisState : SolarState :=
  {| latitude := 48.8566; longitude := 2.3522; utcOffset := 1;
     date := "2024-06-21"; time := "13:00";
     trackingMode := auto; manualPitch := 30; manualYaw := 180;
     panelWidth := 2; panelHeight := 1.2; panelElevation := 1.2;
     albedo := 0.45 |}.

(** The manual sliders at yaw 360, the upper end of the yaw slider. *)
Definition manualState : SolarState :=
  {| latitude := 48.8566; longitude := 2.3522; utcOffset := 1;
     date := "2024-06-21"; time := "13:00";
     trackingMode := manual; manualPitch := 30; manualYaw := 360;
     panelWidth := 2; panelHeight := 1.2; panelElevation := 1.2;
     albedo := 0.45 |}.

(** The manual sliders inside their ranges. *)
Definition manualInRange : SolarState :=
  {| latitude := 48.8566; longitude := 2.3522; utcOffset := 1;
     date := "2024-06-21"; time := "13:00";
     trackingMode := manual; manualPitch := 30; manualYaw := 180;
     panelWidth := 2; panelHeight := 1.2; panelElevation := 1.2;
     albedo := 0.45 |}.

(** A state whose time field was cleared. *)
Definition clearedState : SolarState :=
  {| latitude := 48.8566; longitude := 2.3522; utcOffset := 1;
     date := "2024-06-21"; time := "";
     trackingMode := auto; manualPitch := 30; manualYaw := 180;
     panelWidth := 2; panelHeight := 1.2; panelElevation := 1.2;
     albedo := 0.45 |}.

(** An observer at the north pole. *)
Definition poleState : SolarState :=
  {| latitude := 90; longitude := 0; utcOffset := 0;
     date := "2024-06-21"; time := "12:00";
     trackingMode := auto; manualPitch := 30; manualYaw := 180;
     panelWidth := 2; panelHeight := 1.2; panelElevation := 1.2;
     albedo := 0.45 |}.

(** The sun at local midnight, hour angle [- PI], seen from latitude 0 at
    declination 0. *)
Definition nightSun : SunPosition := sunFromAngles (Fin (- PI)) 0 0.

(** A sun straight up. *)
Definition upSun : SunPosition :=
  {| azimuth := 0; elevation := 90; vector := mkVector3 0 1 0 |}.

(** The Julian century of 2024-06-21 12:00 UTC on a host on UTC. *)
Definition noonCentury : number :=
  (julianDayWithTimeOf (newDate 0 "2024-06-21T12:00:00") 0 - 2451545) / 36525.

(** An observer placed under the sun at that instant: the latitude is the
    declination, the longitude cancels the equation of time. *)
Definition overheadState : SolarState :=
  {| latitude := sunDeclination noonCentury;
     longitude := (0 - eqOfTime noonCentury) / 4;
     utcOffset := 0;
     date := "2024-06-21"; time := "12:00";
     trackingMode := auto; manualPitch := 30; manualYaw := 180;
     panelWidth := 2; panelHeight := 1.2; panelElevation := 1.2;
     albedo := 0.45 |}.

(* ================================================================= *)
(** ** Facts about numbers *)

Section NumberFacts.

Local Open Scope R_scope.

Lemma Rltb_spec (a b : R) : reflect (a < b) (Rltb a b).
Proof. unfold Rltb; destruct (Rlt_dec a b); constructor; assumption. Qed.

Lemma Reqb_spec (a b : R) : reflect (a = b) (Reqb a b).
Proof. unfold Reqb; destruct (Req_dec_T a b); constructor; assumption. Qed.

Lemma Rltb_true (a b : R) : a < b -> Rltb a b = true.
Proof. intros H; destruct (Rltb_spec a b); [reflexivity | contradiction]. Qed.

Lemma Rltb_false (a b : R) : b <= a -> Rltb a b = false.
Proof. intros H; destruct (Rltb_spec a b); [lra | reflexivity]. Qed.

Lemma Reqb_false (a b : R) : a <> b -> Reqb a b = false.
Proof. intros H; destruct (Reqb_spec a b); [contradiction | reflexivity]. Qed.

Lemma Reqb_true (a : R) : Reqb a a = true.
Proof. destruct (Reqb_spec a a); [reflexivity | congruence]. Qed.

Lemma floorZ_bounds (r : R) : IZR (floorZ r) <= r < IZR (floorZ r) + 1.
Proof. unfold floorZ; destruct (base_Int_part r); lra. Qed.

Lemma floorZ_unique (r : R) (z : Z) : IZR z <= r < IZR z + 1 -> floorZ r = z.
Proof.
  intros H; unfold floorZ; symmetry; apply Int_part_spec; lra.
Qed.

Lemma floorZ_IZR_div (a b : Z) :
  (0 < b)%Z -> floorZ (IZR a / IZR b) = (a / b)%Z.
Proof.
  intros Hb; apply floorZ_unique.
  assert (HbR : 0 < IZR b) by (apply IZR_lt; assumption).
  pose proof (Z.div_mod a b ltac:(lia)) as Hdm.
  pose proof (Z.mod_pos_bound a b Hb) as [Hlo Hhi].
  assert (Ha : IZR a = IZR b * IZR (a / b) + IZR (a mod b))
    by (rewrite <- mult_IZR, <- plus_IZR; f_equal; exact Hdm).
  apply IZR_le in Hlo; apply IZR_lt in Hhi.
  split.
  - apply Rmult_le_reg_r with (IZR b); [assumption |].
    unfold Rdiv; rewrite Rmult_assoc, Rinv_l by lra; nra.
  - apply Rmult_lt_reg_r with (IZR b); [assumption |].
    unfold Rdiv; rewrite Rmult_assoc, Rinv_l by lra; nra.
Qed.


Lemma remR_nonneg (a b : R) : 0 < b -> 0 <= a -> 0 <= remR a b < b.
Proof.
  intros Hb Ha; unfold remR, truncZ.
  assert (Hq : 0 <= a / b).
  { pose proof (Rinv_0_lt_compat b Hb) as Hi; unfold Rdiv; nra. }
  rewrite Rltb_false by lra.
  pose proof (floorZ_bounds (a / b)) as [Hlo Hhi].
  assert (Heq : a = (a / b) * b) by (field; lra).
  split; nra.
Qed.

Lemma remR_neg (a b : R) : 0 < b -> a < 0 -> - b < remR a b <= 0.
Proof.
  intros Hb Ha; unfold remR, truncZ.
  assert (Hq : a / b < 0).
  { pose proof (Rinv_0_lt_compat b Hb) as Hi; unfold Rdiv; nra. }
  rewrite Rltb_true by lra.
  pose proof (floorZ_bounds (- (a / b))) as [Hlo Hhi].
  assert (Heq : a = (a / b) * b) by (field; lra).
  rewrite opp_IZR.
  split; nra.
Qed.

Lemma remR_abs (a b : R) : 0 < b -> - b < remR a b < b.
Proof.
  intros Hb; destruct (Rlt_le_dec a 0) as [Ha | Ha].
  - pose proof (remR_neg Hb Ha); lra.
  - pose proof (remR_nonneg Hb Ha); lra.
Qed.

Lemma rem_Fin (a b : R) : b <> 0 -> rem (Fin a) (Fin b) = Fin (remR a b).
Proof. intros Hb; unfold rem; rewrite Reqb_false by assumption; reflexivity. Qed.

Lemma div_Fin (a b : R) : b <> 0 -> div (Fin a) (Fin b) = Fin (a / b).
Proof. intros Hb; unfold div; rewrite Reqb_false by assumption; reflexivity. Qed.

Lemma lt_Fin (a b : R) : lt (Fin a) (Fin b) = Rltb a b.
Proof. reflexivity. Qed.

Lemma gt_Fin (a b : R) : gt (Fin a) (Fin b) = Rltb b a.
Proof. reflexivity. Qed.

Lemma add_Fin (a b : R) : add (Fin a) (Fin b) = Fin (a + b).
Proof. reflexivity. Qed.

Lemma sub_Fin (a b : R) : sub (Fin a) (Fin b) = Fin (a - b).
Proof. reflexivity. Qed.

Lemma mul_Fin (a b : R) : mul (Fin a) (Fin b) = Fin (a * b).
Proof. reflexivity. Qed.

Lemma Math_sin_Fin (a : R) : Math_sin (Fin a) = Fin (sin a).
Proof. reflexivity. Qed.

Lemma Math_cos_Fin (a : R) : Math_cos (Fin a) = Fin (cos a).
Proof. reflexivity. Qed.

Lemma Math_tan_Fin (a : R) : Math_tan (Fin a) = Fin (tan a).
Proof. reflexivity. Qed.

Lemma Math_abs_Fin (a : R) : Math_abs (Fin a) = Fin (Rabs a).
Proof. reflexivity. Qed.

Lemma Math_floor_Fin (a : R) : Math_floor (Fin a) = Fin (IZR (floorZ a)).
Proof. reflexivity. Qed.

Lemma inUnit_true (a : R) : -1 <= a <= 1 -> inUnit a = true.
Proof.
  intros [H1 H2]; unfold inUnit; rewrite !Rltb_false by lra; reflexivity.
Qed.

Lemma inUnit_inv (a : R) : inUnit a = true -> -1 <= a <= 1.
Proof.
  unfold inUnit; destruct (Rltb_spec a (-1)), (Rltb_spec 1 a); simpl;
    intros; try discriminate; lra.
Qed.

Lemma Math_acos_Fin (a : R) :
  -1 <= a <= 1 -> Math_acos (Fin a) = Fin (acos a).
Proof. intros H; simpl; rewrite inUnit_true by assumption; reflexivity. Qed.

Lemma Math_asin_Fin (a : R) :
  -1 <= a <= 1 -> Math_asin (Fin a) = Fin (asin a).
Proof. intros H; simpl; rewrite inUnit_true by assumption; reflexivity. Qed.

(** [Math.acos] answers [NaN] or an angle of [[0, PI]]. *)
Lemma Math_acos_cases (x : number) :
  Math_acos x = NaN \/
  exists a, x = Fin a /\ -1 <= a <= 1 /\
            Math_acos x = Fin (acos a) /\ 0 <= acos a <= PI.
Proof.
  destruct x as [| | | a]; simpl; auto.
  destruct (inUnit a) eqn:E; auto.
  right; exists a; pose proof (inUnit_inv _ E) as Hu.
  repeat split; try lra; apply acos_bound.
Qed.

(** Clamping between two finite bounds. *)
Lemma clamp_cases (x : number) (lo hi : R) :
  lo <= hi ->
  Math_min (Math_max x (Fin lo)) (Fin hi) = NaN /\ x = NaN \/
  exists c, Math_min (Math_max x (Fin lo)) (Fin hi) = Fin c /\ lo <= c <= hi.
Proof.
  intros Hle; destruct x as [| | | a]; simpl; auto.
  - right; exists hi; split; [reflexivity | lra].
  - right; exists lo; simpl.
    destruct (Rltb_spec hi lo); split; try reflexivity; lra.
  - right. destruct (Rltb_spec a lo); simpl.
    + destruct (Rltb_spec hi lo); [lra |]. exists lo; split; [reflexivity | lra].
    + destruct (Rltb_spec hi a); eexists; (split; [reflexivity | lra]).
Qed.

Lemma Math_max_Fin (a b : R) :
  Math_max (Fin a) (Fin b) = Fin (if Rltb a b then b else a).
Proof. simpl; destruct (Rltb a b); reflexivity. Qed.

Lemma Math_min_Fin (a b : R) :
  Math_min (Fin a) (Fin b) = Fin (if Rltb b a then b else a).
Proof. simpl; destruct (Rltb b a); reflexivity. Qed.

End NumberFacts.

Create Rewrite HintDb jsnum.
#[export] Hint Rewrite add_Fin sub_Fin mul_Fin lt_Fin gt_Fin
  Math_sin_Fin Math_cos_Fin Math_tan_Fin Math_abs_Fin Math_floor_Fin
  Math_max_Fin Math_min_Fin : jsnum.

(* ================================================================= *)
(** ** Angles and the wrapped solar time *)

Section Angles.

Local Open Scope R_scope.


Lemma floorMod_range (a b : R) : 0 < b -> 0 <= floorMod a b < b.
Proof.
  intros Hb; unfold floorMod.
  pose proof (floorZ_bounds (a / b)) as [Hlo Hhi].
  assert (Heq : a = (a / b) * b) by (field; lra).
  split; nra.
Qed.

Lemma normalizeAngle_Fin (a : R) :
  normalizeAngle (Fin a) = Fin (floorMod a 360).
Proof.
  unfold normalizeAngle; rewrite rem_Fin by lra; cbv zeta.
  rewrite lt_Fin.
  destruct (Rlt_le_dec a 0) as [Ha | Ha].
  - pose proof (@remR_neg a 360 ltac:(lra) Ha) as Hr.
    assert (Hq : a / 360 < 0) by lra.
    pose proof (floorZ_bounds (- (a / 360))) as [Hlo Hhi].
    assert (Hrem : remR a 360 = a + 360 * IZR (floorZ (- (a / 360)))).
    { unfold remR, truncZ; rewrite Rltb_true by lra; rewrite opp_IZR; ring. }
    destruct (Rltb_spec (remR a 360) 0) as [Hn | Hn].
    + simpl; f_equal; unfold floorMod.
      rewrite (@floorZ_unique (a / 360) (- floorZ (- (a / 360)) - 1)).
      * rewrite Hrem, minus_IZR, opp_IZR; ring.
      * rewrite minus_IZR, opp_IZR; split; [| lra].
        rewrite Hrem in Hn; lra.
    + f_equal; unfold floorMod.
      rewrite (@floorZ_unique (a / 360) (- floorZ (- (a / 360)))).
      * rewrite Hrem, opp_IZR; ring.
      * rewrite opp_IZR; split; [| lra].
        rewrite Hrem in Hn, Hr; lra.
  - pose proof (@remR_nonneg a 360 ltac:(lra) Ha) as Hr.
    rewrite Rltb_false by lra.
    f_equal; unfold remR, floorMod, truncZ.
    rewrite Rltb_false by lra; reflexivity.
Qed.

(** [normalizeAngle] answers [NaN] or an angle of [[0, 360)]. *)
Lemma normalizeAngle_cases (x : number) :
  normalizeAngle x = NaN \/
  exists r, normalizeAngle x = Fin r /\ 0 <= r < 360.
Proof.
  destruct x as [| | | a]; try (left; reflexivity).
  right; exists (floorMod a 360); split.
  - apply normalizeAngle_Fin.
  - apply floorMod_range; lra.
Qed.

Lemma wrapSolarTime_Fin (a : R) :
  exists r, wrapSolarTime (Fin a) = Fin r /\ 0 <= r < 1440.
Proof.
  unfold wrapSolarTime; rewrite rem_Fin by lra; simpl add.
  pose proof (@remR_abs a 1440 ltac:(lra)) as H1.
  rewrite rem_Fin by lra.
  eexists; split; [reflexivity |].
  apply remR_nonneg; lra.
Qed.

(** The wrapped true solar time is [NaN] or lies in [[0, 1440)]. *)
Lemma wrapSolarTime_cases (t : number) :
  wrapSolarTime t = NaN \/
  exists r, wrapSolarTime t = Fin r /\ 0 <= r < 1440.
Proof.
  destruct t as [| | | a]; try (left; reflexivity).
  right; apply wrapSolarTime_Fin.
Qed.

Lemma degToRad_Fin (a : R) : degToRad (Fin a) = Fin (a * PI / 180).
Proof. unfold degToRad, Math_PI; simpl mul; rewrite div_Fin by lra; reflexivity. Qed.

Lemma radToDeg_Fin (a : R) : radToDeg (Fin a) = Fin (a * 180 / PI).
Proof.
  unfold radToDeg, Math_PI; simpl mul.
  rewrite div_Fin by apply PI_neq0; reflexivity.
Qed.

Lemma degToRad_NaN : degToRad NaN = NaN.
Proof. reflexivity. Qed.

Lemma radToDeg_NaN : radToDeg NaN = NaN.
Proof. reflexivity. Qed.

End Angles.

(* ================================================================= *)
(** ** Zenith and azimuth *)

Section Horizontal.

Local Open Scope R_scope.

Lemma cosZenithOf_Fin (l d h : R) :
  cosZenithOf (Fin l) (Fin d) (Fin h)
  = Fin (sin l * sin d + cos l * cos d * cos h).
Proof. reflexivity. Qed.

(** Outside finite angles the cosine of the zenith is [NaN]. *)
Lemma cosZenithOf_cases (latRad declRad haRad : number) :
  cosZenithOf latRad declRad haRad = NaN \/
  exists l d h, latRad = Fin l /\ declRad = Fin d /\ haRad = Fin h.
Proof.
  destruct latRad as [| | | l]; try (left; reflexivity).
  destruct declRad as [| | | d]; try (left; reflexivity).
  destruct haRad as [| | | h]; try (left; reflexivity).
  right; exists l, d, h; auto.
Qed.

Lemma acos_m1 : acos (-1) = PI.
Proof. unfold acos; destruct (Rle_dec (-1) (-1)); [reflexivity | lra]. Qed.

Lemma zenithOf_NaN : zenithOf NaN = NaN.
Proof. reflexivity. Qed.

(** Line 160 bounds the cosine from below only. *)
Lemma zenithOf_Fin_le1 (c : R) :
  c <= 1 ->
  zenithOf (Fin c) = Fin (acos (Rmax c (-1))) /\
  0 <= acos (Rmax c (-1)) <= PI.
Proof.
  intros Hc; unfold zenithOf.
  assert (Hm : Math_max (Fin c) (Fin (-1)) = Fin (Rmax c (-1))).
  { rewrite Math_max_Fin; f_equal.
    destruct (Rltb_spec c (-1)).
    - rewrite Rmax_right by lra; reflexivity.
    - rewrite Rmax_left by lra; reflexivity. }
  rewrite Hm.
  assert (Hu : -1 <= Rmax c (-1) <= 1).
  { split; [apply Rmax_r | apply Rmax_lub; lra]. }
  rewrite Math_acos_Fin by assumption.
  pose proof (acos_bound (Rmax c (-1))) as Hb.
  split; [| assumption].
  unfold Math_PI; rewrite Math_min_Fin; rewrite Rltb_false by lra; reflexivity.
Qed.

Lemma zenithOf_Fin_gt1 (c : R) : 1 < c -> zenithOf (Fin c) = NaN.
Proof.
  intros Hc; unfold zenithOf.
  rewrite Math_max_Fin, Rltb_false by lra.
  simpl; unfold inUnit; rewrite (Rltb_true Hc), andb_false_r; reflexivity.
Qed.

(** The zenith angle is [NaN] or lies in [[0, PI]]. *)
Lemma zenithOf_cases (c : number) :
  zenithOf c = NaN \/ exists z, zenithOf c = Fin z /\ 0 <= z <= PI.
Proof.
  destruct c as [| | | c]; try (left; reflexivity).
  - right; exists PI; unfold zenithOf; simpl Math_max.
    rewrite Math_acos_Fin by lra.
    rewrite acos_m1.
    unfold Math_PI; rewrite Math_min_Fin, Rltb_false by lra.
    pose proof PI_RGT_0; split; [reflexivity | lra].
  - destruct (Rle_lt_dec c 1) as [H | H].
    + right; destruct (zenithOf_Fin_le1 H) as [E B]; eauto.
    + left; apply zenithOf_Fin_gt1; assumption.
Qed.

Lemma azimuthOf_degenerate (latRad declRad haRad zenith : number) :
  (Math_abs (azDenominatorOf latRad zenith) >? 0.001) = false ->
  azimuthOf latRad declRad haRad zenith = Fin 0.
Proof. intros H; unfold azimuthOf; cbv zeta; rewrite H; reflexivity. Qed.

Lemma azDenominatorOf_NaN_l (latRad : number) :
  azDenominatorOf latRad NaN = NaN.
Proof. unfold azDenominatorOf; destruct (Math_cos latRad); reflexivity. Qed.

Lemma azimuthOf_zenith_NaN (latRad declRad haRad : number) :
  azimuthOf latRad declRad haRad NaN = Fin 0.
Proof.
  apply azimuthOf_degenerate; rewrite azDenominatorOf_NaN_l; reflexivity.
Qed.

(** Past the guard every operand is finite and the angle is in range. *)
Lemma azimuthOf_Fin (l d : R) (haRad : number) (z : R) :
  exists r, azimuthOf (Fin l) (Fin d) haRad (Fin z) = Fin r /\ 0 <= r < 360.
Proof.
  unfold azimuthOf; cbv zeta.
  destruct (Math_abs (azDenominatorOf (Fin l) (Fin z)) >? 0.001) eqn:G;
    [| exists 0; split; [reflexivity | lra]].
  unfold azDenominatorOf in *; autorewrite with jsnum in G |- *.
  assert (Hden : cos l * sin z <> 0).
  { intros E; rewrite E, Rabs_R0 in G.
    rewrite Rltb_false in G by lra; discriminate. }
  rewrite div_Fin by assumption.
  destruct (@clamp_cases (Fin ((sin l * cos z - sin d) / (cos l * sin z)))
              (-1) 1 ltac:(lra)) as [[_ E] | [k [E Hk]]]; [discriminate |].
  rewrite E, Math_acos_Fin by assumption.
  pose proof (acos_bound k) as Hb; pose proof PI_RGT_0 as Hpi.
  assert (Hdeg : forall a, 0 <= a <= 2 * PI ->
            exists r, normalizeAngle (radToDeg (Fin a)) = Fin r /\ 0 <= r < 360).
  { intros a Ha; rewrite radToDeg_Fin, normalizeAngle_Fin.
    eexists; split; [reflexivity | apply floorMod_range; lra]. }
  destruct (Math_sin haRad >? Fin 0).
  - unfold Math_PI; autorewrite with jsnum; apply Hdeg; lra.
  - apply Hdeg; lra.
Qed.

(** The azimuth computed from the zenith of the same three angles is a
    finite angle of [[0, 360)], whatever the angles are. *)
Lemma azimuthOf_range (latRad declRad haRad : number) :
  exists r,
    azimuthOf latRad declRad haRad
      (zenithOf (cosZenithOf latRad declRad haRad)) = Fin r /\
    0 <= r < 360.
Proof.
  destruct (cosZenithOf_cases latRad declRad haRad)
    as [E | (l & d & h & -> & -> & ->)].
  - rewrite E, zenithOf_NaN, azimuthOf_zenith_NaN.
    exists 0; split; [reflexivity | lra].
  - destruct (zenithOf_cases (cosZenithOf (Fin l) (Fin d) (Fin h)))
      as [E | [z [E _]]]; rewrite E.
    + rewrite azimuthOf_zenith_NaN; exists 0; split; [reflexivity | lra].
    + apply azimuthOf_Fin.
Qed.

End Horizontal.

(* ================================================================= *)
(** ** Finite values through the ephemeris *)


Section Finite.

Local Open Scope R_scope.

Lemma finite_Fin (r : R) : finite (Fin r).
Proof. exists r; reflexivity. Qed.

Lemma finite_not_NaN (x : number) : finite x -> x <> NaN.
Proof. intros [r ->]; discriminate. Qed.

Lemma finite_isFinite (x : number) : finite x <-> isFinite x = true.
Proof.
  split.
  - intros [r ->]; reflexivity.
  - destruct x; try discriminate; intros _; apply finite_Fin.
Qed.

Lemma finite_add (x y : number) : finite x -> finite y -> finite (x + y).
Proof. intros [a ->] [b ->]; apply finite_Fin. Qed.

Lemma finite_sub (x y : number) : finite x -> finite y -> finite (x - y).
Proof. intros [a ->] [b ->]; apply finite_Fin. Qed.

Lemma finite_mul (x y : number) : finite x -> finite y -> finite (x * y).
Proof. intros [a ->] [b ->]; apply finite_Fin. Qed.

Lemma finite_div (x : number) (b : R) :
  b <> 0 -> finite x -> finite (x / Fin b).
Proof. intros Hb [a ->]; rewrite div_Fin by assumption; apply finite_Fin. Qed.

Lemma finite_floor (x : number) : finite x -> finite (Math_floor x).
Proof. intros [a ->]; apply finite_Fin. Qed.

Lemma finite_sin (x : number) : finite x -> finite (Math_sin x).
Proof. intros [a ->]; apply finite_Fin. Qed.

Lemma finite_cos (x : number) : finite x -> finite (Math_cos x).
Proof. intros [a ->]; apply finite_Fin. Qed.

Lemma finite_tan (x : number) : finite x -> finite (Math_tan x).
Proof. intros [a ->]; apply finite_Fin. Qed.

Lemma finite_degToRad (x : number) : finite x -> finite (degToRad x).
Proof. intros [a ->]; rewrite degToRad_Fin; apply finite_Fin. Qed.

Lemma finite_radToDeg (x : number) : finite x -> finite (radToDeg x).
Proof. intros [a ->]; rewrite radToDeg_Fin; apply finite_Fin. Qed.

Lemma finite_normalizeAngle (x : number) :
  finite x -> finite (normalizeAngle x).
Proof. intros [a ->]; rewrite normalizeAngle_Fin; apply finite_Fin. Qed.

Lemma finite_orElse (x y : number) : finite x -> finite y -> finite (x || y).
Proof.
  intros [a ->] Hy; unfold orElse; destruct (Reqb a 0);
    [assumption | apply finite_Fin].
Qed.

Lemma sin_sin_unit (a b : R) : -1 <= sin a * sin b <= 1.
Proof.
  pose proof (SIN_bound a) as Ha; pose proof (SIN_bound b) as Hb; nra.
Qed.

Lemma finite_asin_sin_sin (x y : number) :
  finite x -> finite y -> finite (Math_asin (Math_sin x * Math_sin y)).
Proof.
  intros [a ->] [b ->]; autorewrite with jsnum.
  rewrite Math_asin_Fin by apply sin_sin_unit; apply finite_Fin.
Qed.

Lemma finite_wrapSolarTime (x : number) :
  finite x -> finite (wrapSolarTime x).
Proof.
  intros [a ->]; destruct (wrapSolarTime_Fin a) as [r [-> _]];
    apply finite_Fin.
Qed.

Lemma finite_getter (f : Z -> Z) (t : Z) : finite (getter f (Some t)).
Proof. apply finite_Fin. Qed.

End Finite.

Ltac finite_step :=
  first
    [ assumption
    | apply finite_Fin
    | apply finite_getter
    | apply finite_asin_sin_sin
    | apply finite_sub
    | apply finite_add
    | apply finite_mul
    | apply finite_div; [lra |]
    | apply finite_floor
    | apply finite_sin
    | apply finite_cos
    | apply finite_tan
    | apply finite_degToRad
    | apply finite_radToDeg
    | apply finite_normalizeAngle
    | apply finite_orElse
    | apply finite_wrapSolarTime ].

Ltac finite_tac := repeat finite_step.

Section EphemerisFinite.

Variable T : number.
Hypothesis HT : finite T.

Lemma finite_geomMeanLongSun : finite (geomMeanLongSun T).
Proof. unfold geomMeanLongSun; finite_tac. Qed.

Lemma finite_geomMeanAnomSun : finite (geomMeanAnomSun T).
Proof. unfold geomMeanAnomSun; finite_tac. Qed.

Lemma finite_eccentEarthOrbit : finite (eccentEarthOrbit T).
Proof. unfold eccentEarthOrbit; finite_tac. Qed.

Lemma finite_sunAppLong : finite (sunAppLong T).
Proof.
  pose proof finite_geomMeanLongSun; pose proof finite_geomMeanAnomSun.
  unfold sunAppLong, sunTrueLong, sunEqOfCenter; finite_tac.
Qed.

Lemma finite_obliqCorr : finite (obliqCorr T).
Proof. unfold obliqCorr, meanObliqEcliptic; finite_tac. Qed.

Lemma finite_sunDeclination : finite (sunDeclination T).
Proof.
  pose proof finite_sunAppLong; pose proof finite_obliqCorr.
  unfold sunDeclination; finite_tac.
Qed.

Lemma finite_varY : finite (varY T).
Proof. pose proof finite_obliqCorr; unfold varY; finite_tac. Qed.

Lemma finite_eqOfTime : finite (eqOfTime T).
Proof.
  pose proof finite_geomMeanLongSun; pose proof finite_geomMeanAnomSun.
  pose proof finite_eccentEarthOrbit; pose proof finite_varY.
  unfold eqOfTime; finite_tac.
Qed.

End EphemerisFinite.

Section DateFinite.

Variables (tz t : Z).

Lemma finite_totalMinutesOf : finite (totalMinutesOf tz (Some t)).
Proof. unfold totalMinutesOf, getHours, getMinutes, getSeconds; finite_tac. Qed.

Lemma finite_julianDayOf : finite (julianDayOf (Some t)).
Proof.
  unfold julianDayOf, getUTCFullYear, getUTCMonth, getUTCDate; cbv zeta.
  finite_tac.
Qed.

Lemma finite_julianDayWithTimeOf (utcOffset : number) :
  finite utcOffset -> finite (julianDayWithTimeOf (Some t) utcOffset).
Proof.
  intros H; pose proof finite_julianDayOf.
  unfold julianDayWithTimeOf, getUTCHours, getUTCMinutes; finite_tac.
Qed.

End DateFinite.

(* ================================================================= *)
(** ** The Julian Day on integers *)


Ltac fin_arith :=
  repeat first [rewrite add_Fin | rewrite sub_Fin | rewrite mul_Fin].

Section JulianDay.

Local Open Scope R_scope.

Lemma floor_div_IZR (a b : Z) :
  (0 < b)%Z ->
  Math_floor (Fin (IZR a) / Fin (IZR b)) = Fin (IZR (a / b)).
Proof.
  intros Hb.
  rewrite div_Fin by (apply not_0_IZR; lia).
  rewrite Math_floor_Fin, floorZ_IZR_div by assumption; reflexivity.
Qed.

Lemma julianDayOf_Some (t : Z) :
  julianDayOf (Some t)
  = Fin (IZR (julianDayNumberZ (YearFromTime t) (MonthFromTime t + 1)
                               (DateFromTime t))).
Proof.
  unfold julianDayOf, getUTCFullYear, getUTCMonth, getUTCDate, getter.
  unfold julianDayNumberZ; cbv zeta.
  set (y := YearFromTime t); set (m := MonthFromTime t); set (d := DateFromTime t).
  fin_arith.
  replace (14 - (IZR m + 1)) with (IZR (14 - (m + 1)))
    by (rewrite minus_IZR, plus_IZR; reflexivity).
  rewrite floor_div_IZR by lia.
  set (A := ((14 - (m + 1)) / 12)%Z).
  fin_arith.
  replace (IZR y + 4800 - IZR A) with (IZR (y + 4800 - A))
    by (rewrite minus_IZR, plus_IZR; reflexivity).
  replace (153 * (IZR m + 1 + 12 * IZR A - 3) + 2)
    with (IZR (153 * (m + 1 + 12 * A - 3) + 2))
    by (repeat (rewrite ?minus_IZR, ?plus_IZR, ?mult_IZR); reflexivity).
  rewrite !floor_div_IZR by lia.
  fin_arith.
  f_equal.
  repeat (rewrite ?minus_IZR, ?plus_IZR, ?mult_IZR); reflexivity.
Qed.

(** Lines 72-75 on a valid date and a finite offset. *)
Lemma julianDayWithTimeOf_Some (t : Z) (off : R) :
  julianDayWithTimeOf (Some t) (Fin off)
  = Fin (IZR (julianDayNumberZ (YearFromTime t) (MonthFromTime t + 1)
                               (DateFromTime t))
         + (IZR (HourFromTime t) - off + IZR (MinFromTime t) / 60) / 24
         - 0.5).
Proof.
  unfold julianDayWithTimeOf; rewrite julianDayOf_Some.
  unfold getUTCHours, getUTCMinutes, getter.
  rewrite sub_Fin, (@div_Fin _ 60) by lra.
  rewrite add_Fin, div_Fin by lra.
  reflexivity.
Qed.

End JulianDay.

(* ================================================================= *)
(** ** The sun position on well-formed input *)


Section SunPositionFacts.

Local Open Scope R_scope.

Lemma sunFromAngles_azimuth (haRad latRad declRad : number) :
  azimuth (sunFromAngles haRad latRad declRad)
  = azimuthOf latRad declRad haRad
      (zenithOf (cosZenithOf latRad declRad haRad)).
Proof. reflexivity. Qed.

Lemma sunFromAngles_elevation (haRad latRad declRad : number) :
  elevation (sunFromAngles haRad latRad declRad)
  = Math_max (90 - radToDeg (zenithOf (cosZenithOf latRad declRad haRad)))
             (-5).
Proof. reflexivity. Qed.

Lemma sunFromAngles_vector (haRad latRad declRad : number) :
  vector (sunFromAngles haRad latRad declRad)
  = directionOf
      (degToRad (azimuth (sunFromAngles haRad latRad declRad)))
      (degToRad (elevation (sunFromAngles haRad latRad declRad))).
Proof. reflexivity. Qed.

Lemma calculateSunPosition_angles (tz : Z) (state : SolarState) :
  exists haRad latRad declRad,
    solarAngles tz state = (haRad, latRad, declRad) /\
    calculateSunPosition tz state = sunFromAngles haRad latRad declRad.
Proof.
  unfold calculateSunPosition.
  destruct (solarAngles tz state) as [[h l] d]; eauto.
Qed.

Lemma finite_hourAngleOf (x : number) : finite x -> finite (hourAngleOf x).
Proof.
  intros H; unfold hourAngleOf; cbv zeta.
  destruct (x / 4 - 180 <? -180); finite_tac.
Qed.

Lemma solarAngles_finite (tz : Z) (state : SolarState) :
  validInput tz state ->
  exists h l d, solarAngles tz state = (Fin h, Fin l, Fin d).
Proof.
  intros (Hlat & Hlon & Hoff & Hdate).
  unfold solarAngles; cbv zeta.
  destruct (newDate tz (date state ++ "T" ++ time state ++ ":00"))
    as [t |]; [clear Hdate | congruence].
  pose proof (finite_julianDayWithTimeOf t Hoff) as HJ.
  pose proof (finite_totalMinutesOf tz t) as HM.
  set (T := ((julianDayWithTimeOf (Some t) (utcOffset state) - 2451545) / 36525)%js) in *.
  assert (HT : finite T) by (unfold T; finite_tac).
  pose proof (finite_sunDeclination HT) as HD.
  pose proof (finite_eqOfTime HT) as HE.
  assert (Hh : finite (degToRad (hourAngleOf (wrapSolarTime
            (totalMinutesOf tz (Some t) + eqOfTime T + 4 * longitude state
             - 60 * utcOffset state)))))
    by (apply finite_degToRad, finite_hourAngleOf; finite_tac).
  assert (Hl : finite (degToRad (latitude state))) by finite_tac.
  assert (Hd : finite (degToRad (sunDeclination T))) by finite_tac.
  destruct Hh as [h ->], Hl as [l ->], Hd as [d ->]; eauto.
Qed.

(** The spherical law of cosines stays within [[-1, 1]]. *)
Lemma cosZenith_bound (l d h : R) :
  -1 <= sin l * sin d + cos l * cos d * cos h <= 1.
Proof.
  pose proof (sin2_cos2 l) as Hl; pose proof (sin2_cos2 d) as Hd.
  pose proof (COS_bound h) as Hh.
  set (s1 := sin l) in *; set (c1 := cos l) in *.
  set (s2 := sin d) in *; set (c2 := cos d) in *.
  set (k := cos h) in *.
  clearbody s1 c1 s2 c2 k.
  assert (H1 : 0 <= Rsqr (s1 - s2)) by (apply Rle_0_sqr).
  assert (H2 : 0 <= Rsqr (s1 + s2)) by (apply Rle_0_sqr).
  assert (H3 : 0 <= Rsqr (c1 - c2)) by (apply Rle_0_sqr).
  assert (H4 : 0 <= Rsqr (c1 + c2)) by (apply Rle_0_sqr).
  unfold Rsqr in *.
  destruct (Rle_lt_dec 0 (c1 * c2)) as [Hp | Hn].
  - assert (Hu : 0 <= c1 * c2 * (1 - k)) by (apply Rmult_le_pos; lra).
    assert (Hv : 0 <= c1 * c2 * (1 + k)) by (apply Rmult_le_pos; lra).
    split; nra.
  - assert (Hu : 0 <= - (c1 * c2) * (1 - k)) by (apply Rmult_le_pos; lra).
    assert (Hv : 0 <= - (c1 * c2) * (1 + k)) by (apply Rmult_le_pos; lra).
    split; nra.
Qed.

Lemma zenith_Fin (l d h : R) :
  exists z, zenithOf (cosZenithOf (Fin l) (Fin d) (Fin h)) = Fin z /\
            0 <= z <= PI.
Proof.
  rewrite cosZenithOf_Fin.
  destruct (@zenithOf_Fin_le1 (sin l * sin d + cos l * cos d * cos h))
    as [E B]; [apply cosZenith_bound | eauto].
Qed.

(** Elevation from a zenith angle of [[0, PI]], floored at [-5]. *)
Lemma elevationClamped_range (z : R) :
  0 <= z <= PI ->
  exists el, Math_max (90 - radToDeg (Fin z)) (-5) = Fin el /\ -5 <= el <= 90.
Proof.
  intros Hz; rewrite radToDeg_Fin, sub_Fin, Math_max_Fin.
  pose proof PI_RGT_0 as Hpi.
  assert (Hdeg : 0 <= z * 180 / PI <= 180).
  { split.
    - unfold Rdiv; apply Rmult_le_pos; [lra | left; apply Rinv_0_lt_compat; lra].
    - apply Rmult_le_reg_r with PI; [lra |].
      unfold Rdiv; rewrite Rmult_assoc, Rinv_l by lra; lra. }
  eexists; split; [reflexivity |].
  destruct (Rltb_spec (90 - z * 180 / PI) (-5)); lra.
Qed.

Lemma sunFromAngles_range (h l d : R) :
  exists az el,
    azimuth (sunFromAngles (Fin h) (Fin l) (Fin d)) = Fin az /\
    0 <= az < 360 /\
    elevation (sunFromAngles (Fin h) (Fin l) (Fin d)) = Fin el /\
    -5 <= el <= 90.
Proof.
  destruct (azimuthOf_range (Fin l) (Fin d) (Fin h)) as [az [Ea Ba]].
  destruct (zenith_Fin l d h) as [z [Ez Bz]].
  destruct (elevationClamped_range Bz) as [el [Ee Be]].
  exists az, el.
  rewrite sunFromAngles_azimuth, sunFromAngles_elevation, Ea, Ez, Ee; auto.
Qed.

Lemma calculateSunPosition_range (tz : Z) (state : SolarState) :
  validInput tz state ->
  exists az el,
    azimuth (calculateSunPosition tz state) = Fin az /\
    0 <= az < 360 /\
    elevation (calculateSunPosition tz state) = Fin el /\
    -5 <= el <= 90.
Proof.
  intros Hv; destruct (solarAngles_finite Hv) as (h & l & d & E).
  unfold calculateSunPosition; rewrite E.
  apply sunFromAngles_range.
Qed.

End SunPositionFacts.

(* ================================================================= *)
(** ** The direction vector *)

Section DirectionFacts.

Local Open Scope R_scope.

Lemma direction_norm (a e : R) :
  sin a * cos e * (sin a * cos e) + sin e * sin e
  + cos a * cos e * (cos a * cos e) = 1.
Proof.
  pose proof (sin2_cos2 a) as Ha; pose proof (sin2_cos2 e) as He.
  unfold Rsqr in *.
  replace (sin a * cos e * (sin a * cos e) + sin e * sin e
           + cos a * cos e * (cos a * cos e))
    with ((sin a * sin a + cos a * cos a) * (cos e * cos e) + sin e * sin e)
    by ring.
  rewrite Ha; lra.
Qed.

Lemma Math_sqrt_1 : Math_sqrt (Fin 1) = Fin 1.
Proof.
  unfold Math_sqrt; rewrite Rltb_false by lra; rewrite sqrt_1; reflexivity.
Qed.

Lemma orElse_Fin_nonzero (a : R) (y : number) :
  a <> 0 -> orElse (Fin a) y = Fin a.
Proof. intros H; unfold orElse; rewrite Reqb_false by assumption; reflexivity. Qed.

(** A vector of finite components with squared norm 1 is left as it is by
    [normalize]. *)
Lemma normalize_unit (x y z : R) :
  x * x + y * y + z * z = 1 ->
  normalize (mkVector3 (Fin x) (Fin y) (Fin z))
  = mkVector3 (Fin x) (Fin y) (Fin z).
Proof.
  intros H; unfold normalize, divideScalar, multiplyScalar, length.
  cbv [vx vy vz]; fin_arith.
  rewrite H, Math_sqrt_1, orElse_Fin_nonzero by lra.
  rewrite div_Fin by lra; fin_arith.
  f_equal; f_equal; field.
Qed.

Lemma length_unit (x y z : R) :
  x * x + y * y + z * z = 1 ->
  length (mkVector3 (Fin x) (Fin y) (Fin z)) = Fin 1.
Proof.
  intros H; unfold length; cbv [vx vy vz]; fin_arith.
  rewrite H; apply Math_sqrt_1.
Qed.

Lemma directionOf_Fin (a e : R) :
  directionOf (Fin a) (Fin e)
  = mkVector3 (Fin (sin a * cos e)) (Fin (sin e)) (Fin (cos a * cos e)).
Proof.
  unfold directionOf; autorewrite with jsnum.
  apply normalize_unit, direction_norm.
Qed.

End DirectionFacts.

(* ================================================================= *)
(** ** Properties of [calculateSunPosition] *)

Section SunPositionTheorems.

Local Open Scope R_scope.

(** C10: the true solar time wrapped by line 148 is [NaN] or lies in
    [[0, 1440)]; the hour angle [trueSolarTime / 4 - 180] then lies in
    [[-180, 180)], the test [hourAngle < -180] of line 151 is false for
    every input and the corrective branch is never taken. *)
Theorem hourAngle_correction_unreachable (t : number) :
  let trueSolarTime := wrapSolarTime t in
  ((trueSolarTime / 4 - 180 <? -180)%js = false) /\
  hourAngleOf trueSolarTime = (trueSolarTime / 4 - 180)%js /\
  match trueSolarTime with
  | Fin r =>
      0 <= r < 1440 /\
      hourAngleOf trueSolarTime = Fin (r / 4 - 180) /\
      -180 <= r / 4 - 180 < 180
  | NaN => isFinite t = false
  | _ => False
  end.
Proof.
  cbv zeta.
  assert (Hlt : ((wrapSolarTime t / 4 - 180 <? -180)%js = false)).
  { destruct (wrapSolarTime_cases t) as [-> | [r [-> Hr]]]; [reflexivity |].
    rewrite div_Fin by lra; rewrite sub_Fin, lt_Fin.
    apply Rltb_false; lra. }
  split; [exact Hlt |].
  split; [unfold hourAngleOf; cbv zeta; rewrite Hlt; reflexivity |].
  destruct t as [| | | a]; try reflexivity.
  destruct (wrapSolarTime_Fin a) as [r [E Hr]]; rewrite E.
  split; [exact Hr |]; split; [| lra].
  unfold hourAngleOf; cbv zeta.
  rewrite div_Fin by lra; rewrite sub_Fin, lt_Fin.
  rewrite Rltb_false by lra; reflexivity.
Qed.

Lemma directionOf_NaN_pitch (yawRad : number) :
  directionOf yawRad NaN = mkVector3 NaN NaN NaN.
Proof.
  unfold directionOf, normalize, divideScalar, multiplyScalar, length.
  cbv [vx vy vz]; change (Math_cos NaN) with NaN; change (Math_sin NaN) with NaN.
  assert (Hs : (Math_sin yawRad * NaN)%js = NaN)
    by (destruct (Math_sin yawRad); reflexivity).
  assert (Hc : (Math_cos yawRad * NaN)%js = NaN)
    by (destruct (Math_cos yawRad); reflexivity).
  rewrite Hs, Hc; reflexivity.
Qed.

(** C2: line 160 bounds the cosine of the zenith from below only.  A value
    one unit in the last place above 1 reaches [Math.acos] unchanged: the
    zenith is [NaN], and lines 161-198 return the elevation [NaN], the
    azimuth 0 and a direction vector of [NaN] components.  A value below -1
    is clamped and gives the zenith [PI]. *)
Theorem zenith_overshoot_yields_NaN (haRad latRad declRad : number) :
  let cosZenith := Fin (1 + / 2 ^ 52) in
  Math_max cosZenith (-1) = cosZenith /\
  zenithOf cosZenith = NaN /\
  elevation (sunFromCosZenith haRad latRad declRad cosZenith) = NaN /\
  azimuth (sunFromCosZenith haRad latRad declRad cosZenith) = Fin 0 /\
  vector (sunFromCosZenith haRad latRad declRad cosZenith)
  = mkVector3 NaN NaN NaN /\
  zenithOf (Fin (-1 - / 2 ^ 52)) = Fin PI.
Proof.
  cbv zeta.
  assert (Hpos : 0 < / 2 ^ 52) by (apply Rinv_0_lt_compat, pow_lt; lra).
  assert (E : zenithOf (Fin (1 + / 2 ^ 52)) = NaN)
    by (apply zenithOf_Fin_gt1; lra).
  split; [rewrite Math_max_Fin, Rltb_false by lra; reflexivity |].
  split; [exact E |].
  unfold sunFromCosZenith; cbv zeta; cbv [elevation azimuth vector].
  rewrite E, azimuthOf_zenith_NaN.
  change (Math_max (90 - radToDeg NaN) (-5)) with NaN.
  change (degToRad NaN) with NaN.
  rewrite directionOf_NaN_pitch.
  do 3 (split; [reflexivity |]).
  destruct (@zenithOf_Fin_le1 (-1 - / 2 ^ 52) ltac:(lra)) as [E' _].
  rewrite E', Rmax_right by lra; rewrite acos_m1; reflexivity.
Qed.

Lemma sunFromCosZenith_elevation (haRad latRad declRad cosZenith : number) :
  elevation (sunFromCosZenith haRad latRad declRad cosZenith)
  = Math_max (90 - radToDeg (zenithOf cosZenith)) (-5).
Proof. reflexivity. Qed.

Lemma sunFromCosZenith_azimuth (haRad latRad declRad cosZenith : number) :
  azimuth (sunFromCosZenith haRad latRad declRad cosZenith)
  = azimuthOf latRad declRad haRad (zenithOf cosZenith).
Proof. reflexivity. Qed.

Lemma sunFromCosZenith_vector (haRad latRad declRad cosZenith : number) :
  vector (sunFromCosZenith haRad latRad declRad cosZenith)
  = directionOf
      (degToRad (azimuth (sunFromCosZenith haRad latRad declRad cosZenith)))
      (degToRad (elevation (sunFromCosZenith haRad latRad declRad cosZenith))).
Proof. reflexivity. Qed.

(** The elevation of lines 160-184 from a finite cosine of the zenith:
    [NaN] above 1, an angle of [[-5, 90]] otherwise. *)
Lemma sunFromCosZenith_elevation_cases (haRad latRad declRad : number) (c : R) :
  let sun := sunFromCosZenith haRad latRad declRad (Fin c) in
  if Rltb 1 c then elevation sun = NaN
  else exists el, elevation sun = Fin el /\ -5 <= el <= 90.
Proof.
  cbv zeta; rewrite sunFromCosZenith_elevation.
  destruct (Rltb_spec 1 c) as [H | H].
  - rewrite zenithOf_Fin_gt1 by exact H; reflexivity.
  - destruct (@zenithOf_Fin_le1 c ltac:(lra)) as [E B]; rewrite E.
    apply elevationClamped_range; exact B.
Qed.

(** The elevation of [calculateSunPosition] is [NaN] or lies in
    [[-5, 90]], whatever the input. *)
Lemma calculateSunPosition_elevation_cases (tz : Z) (state : SolarState) :
  elevation (calculateSunPosition tz state) = NaN \/
  exists el,
    elevation (calculateSunPosition tz state) = Fin el /\ -5 <= el <= 90.
Proof.
  destruct (calculateSunPosition_angles tz state) as (h & l & d & _ & ->).
  rewrite sunFromAngles_elevation.
  destruct (zenithOf_cases (cosZenithOf l d h)) as [E | [z [E Hz]]]; rewrite E.
  - left; reflexivity.
  - right; apply elevationClamped_range; exact Hz.
Qed.

(** C5: [normalizeAngle] is the floor-modulo by 360 and never leaves a
    negative angle, and the azimuth of [calculateSunPosition] lies in
    [[0, 360)] for every input.  The elevation does not always lie in
    [[-5, 90]]: [calculateSunPosition] hands the cosine of the zenith to
    lines 160-184, which return an elevation of [[-5, 90]] when the cosine
    is at most 1 and [NaN] when it is above 1, the value that line 160 lets
    through to [Math.acos].  For every input the elevation is [NaN] or in
    [[-5, 90]]. *)
Theorem elevation_range_up_to_overshoot :
  (forall a : R,
      normalizeAngle (Fin a) = Fin (floorMod a 360) /\
      0 <= floorMod a 360 < 360) /\
  (forall tz state,
      (exists haRad latRad declRad,
          solarAngles tz state = (haRad, latRad, declRad) /\
          calculateSunPosition tz state
          = sunFromCosZenith haRad latRad declRad
              (cosZenithOf latRad declRad haRad)) /\
      (exists az,
          azimuth (calculateSunPosition tz state) = Fin az /\ 0 <= az < 360) /\
      (elevation (calculateSunPosition tz state) = NaN \/
       exists el,
         elevation (calculateSunPosition tz state) = Fin el /\
         -5 <= el <= 90)) /\
  (forall (haRad latRad declRad : number) (c : R),
      let sun := sunFromCosZenith haRad latRad declRad (Fin c) in
      if Rltb 1 c then elevation sun = NaN
      else exists el, elevation sun = Fin el /\ -5 <= el <= 90) /\
  elevation (sunFromCosZenith 0 0 0 (Fin (1 + / 2 ^ 52))) = NaN.
Proof.
  split; [| split; [| split]].
  - intros a; split; [apply normalizeAngle_Fin | apply floorMod_range; lra].
  - intros tz state; split; [| split].
    + destruct (calculateSunPosition_angles tz state) as (h & l & d & Es & E).
      exists h, l, d; split; [exact Es | exact E].
    + destruct (calculateSunPosition_angles tz state) as (h & l & d & _ & ->).
      rewrite sunFromAngles_azimuth; apply azimuthOf_range.
    + apply calculateSunPosition_elevation_cases.
  - intros haRad latRad declRad c.
    apply sunFromCosZenith_elevation_cases.
  - assert (Hpos : 0 < / 2 ^ 52) by (apply Rinv_0_lt_compat, pow_lt; lra).
    rewrite sunFromCosZenith_elevation, zenithOf_Fin_gt1 by lra; reflexivity.
Qed.

(** C6: the direction vector is [directionOf] at the returned azimuth and
    the clamped elevation, both in radians, for every input.  It is not
    always of length 1: from finite angles and a cosine of the zenith of at
    most 1, lines 160-198 return
    [(sin az cos el, sin el, cos az cos el)], of length 1; from a cosine
    above 1, which line 160 lets through to [Math.acos], they return three
    [NaN] components, and the length is [NaN]. *)
Theorem sun_vector_unit_up_to_overshoot :
  (forall tz state,
      vector (calculateSunPosition tz state)
      = directionOf (degToRad (azimuth (calculateSunPosition tz state)))
                    (degToRad (elevation (calculateSunPosition tz state)))) /\
  (forall h l d c : R,
      let sun := sunFromCosZenith (Fin h) (Fin l) (Fin d) (Fin c) in
      if Rltb 1 c
      then vector sun = mkVector3 NaN NaN NaN /\ length (vector sun) = NaN
      else exists az el,
          azimuth sun = Fin az /\
          elevation sun = Fin el /\
          vector sun
          = mkVector3 (Fin (sin (az * PI / 180) * cos (el * PI / 180)))
                      (Fin (sin (el * PI / 180)))
                      (Fin (cos (az * PI / 180) * cos (el * PI / 180))) /\
          length (vector sun) = Fin 1) /\
  length (vector (sunFromCosZenith 0 0 0 (Fin (1 + / 2 ^ 52)))) = NaN.
Proof.
  assert (Hnan : forall haRad latRad declRad c, 1 < c ->
            vector (sunFromCosZenith haRad latRad declRad (Fin c))
            = mkVector3 NaN NaN NaN).
  { intros haRad latRad declRad c Hc.
    rewrite sunFromCosZenith_vector, sunFromCosZenith_elevation.
    rewrite zenithOf_Fin_gt1 by exact Hc.
    change (Math_max (90 - radToDeg NaN) (-5)) with NaN.
    change (degToRad NaN) with NaN; apply directionOf_NaN_pitch. }
  split; [| split].
  - intros tz state.
    destruct (calculateSunPosition_angles tz state) as (h & l & d & _ & ->).
    apply sunFromAngles_vector.
  - intros h l d c; cbv zeta.
    destruct (Rltb_spec 1 c) as [H | H].
    + rewrite Hnan by exact H; split; reflexivity.
    + rewrite sunFromCosZenith_vector.
      rewrite sunFromCosZenith_azimuth, sunFromCosZenith_elevation.
      destruct (@zenithOf_Fin_le1 c ltac:(lra)) as [E B]; rewrite E.
      destruct (azimuthOf_Fin l d (Fin h) (acos (Rmax c (-1))))
        as [az [Ea _]].
      destruct (elevationClamped_range B) as [el [Ee _]].
      exists az, el; rewrite Ea, Ee, !degToRad_Fin, directionOf_Fin.
      split; [reflexivity |]; split; [reflexivity |].
      split; [reflexivity |].
      apply length_unit, direction_norm.
  - assert (Hpos : 0 < / 2 ^ 52) by (apply Rinv_0_lt_compat, pow_lt; lra).
    rewrite Hnan by lra; reflexivity.
Qed.

End SunPositionTheorems.

Section AzimuthTheorems.

Local Open Scope R_scope.

Lemma add_NaN_r (x : number) : (x + NaN)%js = NaN.
Proof. destruct x; reflexivity. Qed.

Lemma sub_NaN_r (x : number) : (x - NaN)%js = NaN.
Proof. destruct x; reflexivity. Qed.

(** A date that cannot be read, or a [NaN] among the three numeric inputs,
    makes the hour angle or the latitude in radians [NaN]. *)
Lemma solarAngles_NaN_input (tz : Z) (state : SolarState) :
  newDate tz (date state ++ "T" ++ time state ++ ":00") = None \/
  latitude state = NaN \/ longitude state = NaN \/ utcOffset state = NaN ->
  fst (fst (solarAngles tz state)) = NaN \/
  snd (fst (solarAngles tz state)) = NaN.
Proof.
  unfold solarAngles; cbv zeta; cbn [fst snd].
  intros [E | [E | [E | E]]]; rewrite E.
  - left; reflexivity.
  - right; reflexivity.
  - left; change (4 * NaN)%js with NaN; rewrite add_NaN_r; reflexivity.
  - left; change (60 * NaN)%js with NaN; rewrite sub_NaN_r; reflexivity.
Qed.

Lemma guard_false_of_NaN (latRad zenith : number) :
  azDenominatorOf latRad zenith = NaN ->
  (Math_abs (azDenominatorOf latRad zenith) >? 0.001)%js = false.
Proof. intros ->; reflexivity. Qed.

Lemma sunFromAngles_NaN (haRad latRad declRad : number) :
  cosZenithOf latRad declRad haRad = NaN ->
  azDenominatorOf latRad (zenithOf (cosZenithOf latRad declRad haRad)) = NaN /\
  azimuth (sunFromAngles haRad latRad declRad) = Fin 0.
Proof.
  intros E; rewrite sunFromAngles_azimuth, E, zenithOf_NaN.
  split; [apply azDenominatorOf_NaN_l | apply azimuthOf_zenith_NaN].
Qed.

(** C9: the azimuth returned by [calculateSunPosition] is a finite angle
    for every input, never [NaN].  As soon as one of the three angles, the
    cosine of the zenith, the zenith or the denominator is [NaN], the guard
    of line 166 is false and the azimuth is 0; a date or time that cannot be
    read, or a [NaN] latitude, longitude or offset, is such a case. *)
Theorem azimuth_never_NaN :
  (forall tz state,
      exists az,
        azimuth (calculateSunPosition tz state) = Fin az /\ 0 <= az < 360) /\
  (forall haRad latRad declRad,
      let cosZenith := cosZenithOf latRad declRad haRad in
      let zenith := zenithOf cosZenith in
      let azDenominator := azDenominatorOf latRad zenith in
      orb (isNaN haRad) (orb (isNaN latRad) (orb (isNaN declRad)
        (orb (isNaN cosZenith) (orb (isNaN zenith) (isNaN azDenominator)))))
      = true ->
      (Math_abs azDenominator >? 0.001)%js = false /\
      azimuth (sunFromAngles haRad latRad declRad) = Fin 0) /\
  (forall tz state,
      newDate tz (date state ++ "T" ++ time state ++ ":00") = None \/
      latitude state = NaN \/ longitude state = NaN \/ utcOffset state = NaN ->
      azimuth (calculateSunPosition tz state) = Fin 0).
Proof.
  split; [| split].
  - intros tz state.
    destruct (calculateSunPosition_angles tz state) as (h & l & d & _ & ->).
    rewrite sunFromAngles_azimuth; apply azimuthOf_range.
  - intros haRad latRad declRad; cbv zeta; intros H.
    destruct (cosZenithOf_cases latRad declRad haRad)
      as [E | (l & d & h & -> & -> & ->)].
    + destruct (sunFromAngles_NaN haRad latRad declRad E) as [Ed Ea].
      split; [apply guard_false_of_NaN |]; assumption.
    + rewrite sunFromAngles_azimuth.
      destruct (zenith_Fin l d h) as [z [Ez _]].
      rewrite Ez, cosZenithOf_Fin in H; discriminate H.
  - intros tz state E.
    pose proof (solarAngles_NaN_input tz state E) as Hh.
    destruct (calculateSunPosition_angles tz state) as (h & l & d & Es & ->).
    rewrite Es in Hh; cbn [fst snd] in Hh.
    destruct (cosZenithOf_cases l d h) as [Ec | (? & ? & ? & El & _ & Eh)].
    + apply (sunFromAngles_NaN h l d Ec).
    + destruct Hh as [Hh | Hh]; congruence.
Qed.

Lemma overhead_zenith (zenith : number) :
  Math_max (90 - radToDeg zenith) (-5) = Fin 90 ->
  zenith = NaN \/ (exists z, zenith = Fin z /\ 0 <= z <= PI) ->
  zenith = Fin 0.
Proof.
  intros H [-> | [z [-> Hz]]]; [discriminate H |].
  rewrite radToDeg_Fin, sub_Fin, Math_max_Fin in H.
  injection H as H; f_equal.
  pose proof PI_RGT_0 as Hpi.
  destruct (Rltb_spec (90 - z * 180 / PI) (-5)); [lra |].
  assert (E : z * 180 / PI = 0) by lra.
  apply (f_equal (fun u => u * PI)) in E.
  unfold Rdiv in E; rewrite Rmult_assoc, Rinv_l in E by lra; lra.
Qed.

(** C7: when the azimuth denominator [cos(lat) * sin(zenith)] has magnitude
    at most 0.001 the returned azimuth is exactly 0; in particular a sun
    position of elevation 90 has azimuth 0. *)
Theorem azimuth_zero_when_degenerate :
  (forall haRad latRad declRad m,
      Math_abs
        (azDenominatorOf latRad
           (zenithOf (cosZenithOf latRad declRad haRad))) = Fin m ->
      m <= 0.001 ->
      azimuth (sunFromAngles haRad latRad declRad) = Fin 0) /\
  (forall tz state,
      elevation (calculateSunPosition tz state) = Fin 90 ->
      azimuth (calculateSunPosition tz state) = Fin 0).
Proof.
  split.
  - intros haRad latRad declRad m Hm Hle.
    rewrite sunFromAngles_azimuth; apply azimuthOf_degenerate.
    rewrite Hm, gt_Fin; apply Rltb_false; assumption.
  - intros tz state.
    destruct (calculateSunPosition_angles tz state) as (h & l & d & _ & ->).
    rewrite sunFromAngles_azimuth, sunFromAngles_elevation; intros H.
    apply overhead_zenith in H.
    + rewrite H; apply azimuthOf_degenerate.
      unfold azDenominatorOf; rewrite Math_sin_Fin, sin_0.
      destruct l as [| | | a]; try reflexivity.
      rewrite Math_cos_Fin, mul_Fin, Math_abs_Fin, gt_Fin, Rmult_0_r, Rabs_R0.
      apply Rltb_false; lra.
    + destruct (zenithOf_cases (cosZenithOf l d h)) as [E | E]; auto.
Qed.

End AzimuthTheorems.

(* ================================================================= *)
(** ** The Julian Day and the host's zone *)

Section HostZone.

Local Open Scope R_scope.

Lemma digit_range (c : ascii) (n : Z) :
  digit c = Some n -> (0 <= n <= 9)%Z.
Proof.
  unfold digit; cbv zeta.
  destruct ((48 <=? Z.of_nat (nat_of_ascii c))%Z
            && (Z.of_nat (nat_of_ascii c) <=? 57)%Z) eqn:E; [| discriminate].
  apply andb_true_iff in E; destruct E as [E1 E2].
  apply Z.leb_le in E1; apply Z.leb_le in E2.
  intros H; injection H as <-; lia.
Qed.

Lemma digits_nonneg (cs : list ascii) (acc n : Z) :
  (0 <= acc)%Z -> digits acc cs = Some n -> (0 <= n)%Z.
Proof.
  revert acc; induction cs as [| c cs IH]; intros acc Hacc; cbn [digits].
  - intros H; injection H as <-; assumption.
  - destruct (digit c) as [k |] eqn:E; [| discriminate].
    apply digit_range in E; apply IH; lia.
Qed.

(** The fields of a stamp that [parseDateTime] accepts. *)
Lemma parseDateTime_bounds (s : string) (f : Fields) :
  parseDateTime s = Some f ->
  (0 <= f_hour f <= 24 /\ 0 <= f_minute f <= 59 /\ 0 <= f_second f <= 59)%Z.
Proof.
  unfold parseDateTime.
  destruct (list_ascii_of_string s) as [| c l]; [discriminate |].
  do 18 (destruct l as [| ? l]; [discriminate |]).
  destruct l; [| discriminate].
  match goal with |- context [if ?b then _ else _] => destruct b end;
    [| discriminate].
  repeat match goal with
         | |- context [digits 0 ?cs] =>
             let E := fresh "E" in
             destruct (digits 0 cs) eqn:E; [| discriminate]
         end.
  cbv zeta.
  match goal with |- context [validFields ?g] =>
    destruct (validFields g) eqn:V end; [| discriminate].
  intros H; injection H as <-.
  unfold validFields in V; cbn [f_hour f_minute f_second f_month f_day f_year] in *.
  repeat (apply andb_true_iff in V; destruct V as [V ?]).
  repeat match goal with
         | H : (_ <=? _)%Z = true |- _ => apply Z.leb_le in H
         | H : digits 0 _ = Some _ |- _ =>
             apply digits_nonneg in H; [| lia]
         end.
  lia.
Qed.

(** The host's zone shifts the time value of a stamp, nothing else. *)
Lemma newDate_host_zone (tz : Z) (s : string) (f : Fields) :
  parseDateTime s = Some f ->
  newDate tz s = TimeClip (localTimeValue f - tz * msPerMinute).
Proof. intros E; unfold newDate; rewrite E; reflexivity. Qed.

(** Lines 53-54 give back the minutes of the day as typed, whatever the
    fixed offset [tz] of the host. *)
Lemma totalMinutesOf_host_independent (tz t : Z) (s : string) (f : Fields) :
  parseDateTime s = Some f ->
  newDate tz s = Some t ->
  (f_hour f < 24)%Z ->
  totalMinutesOf tz (newDate tz s)
  = Fin (IZR (f_hour f) * 60 + IZR (f_minute f) + IZR (f_second f) / 60).
Proof.
  intros Ep Et Hh.
  destruct (parseDateTime_bounds s Ep) as ([Hh0 _] & [Hm0 Hm1] & [Hs0 Hs1]).
  rewrite Et; rewrite (newDate_host_zone tz s Ep) in Et.
  unfold TimeClip in Et.
  destruct (Z.abs (localTimeValue f - tz * msPerMinute) <=? 8640000000000000)%Z;
    [injection Et as Et | discriminate].
  assert (EL : LocalTime tz t = localTimeValue f)
    by (unfold LocalTime; lia).
  unfold totalMinutesOf, getHours, getMinutes, getSeconds, getter.
  rewrite EL; unfold localTimeValue, msPerDay, msPerHour, msPerMinute.
  set (D := daysFromCivil (f_year f) (f_month f) (f_day f)).
  set (h := f_hour f) in *; set (m := f_minute f) in *;
    set (c := f_second f) in *.
  assert (E1 : HourFromTime (D * 86400000 + h * 3600000 + m * 60000 + c * 1000)
               = h).
  { unfold HourFromTime, msPerHour.
    rewrite <- (Z.div_unique (D * 86400000 + h * 3600000 + m * 60000 + c * 1000)
                  3600000 (24 * D + h) (m * 60000 + c * 1000)) by lia.
    symmetry; apply (Z.mod_unique (24 * D + h) 24 D h); lia. }
  assert (E2 : MinFromTime (D * 86400000 + h * 3600000 + m * 60000 + c * 1000)
               = m).
  { unfold MinFromTime, msPerMinute.
    rewrite <- (Z.div_unique (D * 86400000 + h * 3600000 + m * 60000 + c * 1000)
                  60000 (60 * (24 * D + h) + m) (c * 1000)) by lia.
    symmetry; apply (Z.mod_unique (60 * (24 * D + h) + m) 60 (24 * D + h) m); lia. }
  assert (E3 : SecFromTime (D * 86400000 + h * 3600000 + m * 60000 + c * 1000)
               = c).
  { unfold SecFromTime.
    rewrite <- (Z.div_unique (D * 86400000 + h * 3600000 + m * 60000 + c * 1000)
                  1000 (60 * (60 * (24 * D + h) + m) + c) 0) by lia.
    symmetry;
      apply (Z.mod_unique (60 * (60 * (24 * D + h) + m) + c) 60
               (60 * (24 * D + h) + m) c); lia. }
  rewrite E1, E2, E3, div_Fin by lra; reflexivity.
Qed.

Lemma parisState_stamp :
  date parisState ++ "T" ++ time parisState ++ ":00" = "2024-06-21T13:00:00".
Proof. reflexivity. Qed.

Lemma newDate_paris_utc :
  newDate 0 "2024-06-21T13:00:00" = Some 1718974800000%Z.
Proof. vm_compute; reflexivity. Qed.

Lemma newDate_paris_cet :
  newDate 60 "2024-06-21T13:00:00" = Some 1718971200000%Z.
Proof. vm_compute; reflexivity. Qed.

(** C1: the Julian Day of lines 72-75 is taken from the UTC getters of a
    date read in the host's zone, so it depends on that zone.  For
    2024-06-21 13:00 at UTC offset +1 a host on UTC gives 2460483, the
    value of the formula on the fields as typed; a host on UTC+1 gives
    2460483 - 1/24.  The minutes of the day (lines 53-54, local getters)
    are 780 on both hosts. *)
Theorem julianDay_depends_on_host_zone :
  let stamp := date parisState ++ "T" ++ time parisState ++ ":00" in
  let off := utcOffset parisState in
  julianDayWithTimeOf (newDate 0 stamp) off
  = Fin (IZR (julianDayNumberZ 2024 6 21) + (13 - 1 + 0 / 60) / 24 - 0.5) /\
  julianDayWithTimeOf (newDate 0 stamp) off = Fin 2460483 /\
  julianDayWithTimeOf (newDate 60 stamp) off = Fin (2460483 - 1 / 24) /\
  julianDayWithTimeOf (newDate 0 stamp) off
  <> julianDayWithTimeOf (newDate 60 stamp) off /\
  totalMinutesOf 0 (newDate 0 stamp) = Fin 780 /\
  totalMinutesOf 60 (newDate 60 stamp) = Fin 780.
Proof.
  cbv zeta; rewrite parisState_stamp, newDate_paris_utc, newDate_paris_cet.
  change (utcOffset parisState) with (Fin 1).
  rewrite !julianDayWithTimeOf_Some.
  change (julianDayNumberZ (YearFromTime 1718974800000)
            (MonthFromTime 1718974800000 + 1) (DateFromTime 1718974800000))
    with 2460483%Z.
  change (julianDayNumberZ (YearFromTime 1718971200000)
            (MonthFromTime 1718971200000 + 1) (DateFromTime 1718971200000))
    with 2460483%Z.
  change (julianDayNumberZ 2024 6 21) with 2460483%Z.
  change (HourFromTime 1718974800000) with 13%Z.
  change (HourFromTime 1718971200000) with 12%Z.
  change (MinFromTime 1718974800000) with 0%Z.
  change (MinFromTime 1718971200000) with 0%Z.
  assert (E0 : 2460483 + (13 - 1 + 0 / 60) / 24 - 0.5 = 2460483) by lra.
  assert (E1 : 2460483 + (12 - 1 + 0 / 60) / 24 - 0.5 = 2460483 - 1 / 24)
    by lra.
  rewrite E0, E1.
  repeat split.
  - intros H; injection H as H; lra.
  - unfold totalMinutesOf, getHours, getMinutes, getSeconds, getter.
    change (HourFromTime (LocalTime 0 1718974800000)) with 13%Z.
    change (MinFromTime (LocalTime 0 1718974800000)) with 0%Z.
    change (SecFromTime (LocalTime 0 1718974800000)) with 0%Z.
    rewrite div_Fin by lra; fin_arith; f_equal; lra.
  - unfold totalMinutesOf, getHours, getMinutes, getSeconds, getter.
    change (HourFromTime (LocalTime 60 1718971200000)) with 13%Z.
    change (MinFromTime (LocalTime 60 1718971200000)) with 0%Z.
    change (SecFromTime (LocalTime 60 1718971200000)) with 0%Z.
    rewrite div_Fin by lra; fin_arith; f_equal; lra.
Qed.

End HostZone.

(* ================================================================= *)
(** ** Panel pose and incidence metrics *)

Section PanelTheorems.

Local Open Scope R_scope.

Lemma nightSun_elevation : elevation nightSun = Fin (-5).
Proof.
  unfold nightSun; rewrite sunFromAngles_elevation, cosZenithOf_Fin.
  rewrite sin_0, cos_0, cos_neg, cos_PI.
  destruct (@zenithOf_Fin_le1 (0 * 0 + 1 * 1 * -1) ltac:(lra)) as [E _].
  rewrite E, Rmax_right by lra.
  rewrite acos_m1, radToDeg_Fin, sub_Fin, Math_max_Fin.
  pose proof PI_RGT_0 as Hpi.
  replace (PI * 180 / PI) with 180 by (field; lra).
  rewrite Rltb_true by lra; reflexivity.
Qed.

Lemma floorMod_360 : floorMod 360 360 = 0.
Proof.
  unfold floorMod; rewrite (@floorZ_unique (360 / 360) 1) by lra; lra.
Qed.

(** C3, as stated, fails: with the yaw slider at 360 the pose keeps yaw
    360, and [normalizeAngle 360] is 0. *)
Lemma manual_pose_not_normalized :
  ~ (forall state sun,
        trackingMode state = manual ->
        pitch (getPanelNormal state sun)
        = Math_min (Math_max (manualPitch state) 0) 90 /\
        yaw (getPanelNormal state sun) = normalizeAngle (manualYaw state)).
Proof.
  intros H; destruct (H manualState upSun eq_refl) as [_ Hy].
  change (yaw (getPanelNormal manualState upSun)) with (Fin 360) in Hy.
  change (manualYaw manualState) with (Fin 360) in Hy.
  rewrite normalizeAngle_Fin, floorMod_360 in Hy.
  injection Hy as Hy; lra.
Qed.

(** C3, amended: in manual mode [getPanelNormal] returns the manual pitch
    and yaw unchanged, whatever the sun position; they equal the clamped
    pitch and the normalized yaw when [0 <= manualPitch <= 90] and
    [0 <= manualYaw < 360].  The clamp and the normalization are applied by
    [PanelAssembly]. *)
Theorem manual_pose_pass_through (state : SolarState) (sun : SunPosition) :
  trackingMode state = manual ->
  pitch (getPanelNormal state sun) = manualPitch state /\
  yaw (getPanelNormal state sun) = manualYaw state /\
  pa_pitchClamped (PanelAssembly (pitch (getPanelNormal state sun))
                                 (yaw (getPanelNormal state sun)))
  = Math_min (Math_max (manualPitch state) 0) 90 /\
  pa_yawRad (PanelAssembly (pitch (getPanelNormal state sun))
                           (yaw (getPanelNormal state sun)))
  = degToRad (normalizeAngle (manualYaw state)) /\
  (forall p y : R,
      manualPitch state = Fin p -> manualYaw state = Fin y ->
      0 <= p <= 90 -> 0 <= y < 360 ->
      pitch (getPanelNormal state sun)
      = Math_min (Math_max (manualPitch state) 0) 90 /\
      yaw (getPanelNormal state sun) = normalizeAngle (manualYaw state)).
Proof.
  intros Hm; unfold getPanelNormal, PanelAssembly; cbv zeta; rewrite Hm.
  cbv [pitch yaw pa_pitchClamped pa_yawRad].
  do 4 (split; [reflexivity |]).
  intros p y Ep Ey Hp Hy; split.
  - rewrite Ep, Math_max_Fin, Rltb_false by lra.
    rewrite Math_min_Fin, Rltb_false by lra; reflexivity.
  - rewrite Ey, normalizeAngle_Fin; f_equal.
    unfold floorMod; rewrite (@floorZ_unique (y / 360) 0) by lra; lra.
Qed.

(** C4, as stated, fails: in auto mode the pose of the night sun has pitch
    -5. *)
Lemma auto_pitch_below_zero :
  ~ (forall state sun,
        exists p, pitch (getPanelNormal state sun) = Fin p /\ 0 <= p <= 90).
Proof.
  intros H; destruct (H parisState nightSun) as [p [E Hp]].
  change (pitch (getPanelNormal parisState nightSun))
    with (elevation nightSun) in E.
  rewrite nightSun_elevation in E; injection E as E; lra.
Qed.

Lemma pitchClamped_range (pitch : number) :
  pitch <> NaN ->
  exists c, Math_min (Math_max pitch 0) 90 = Fin c /\ 0 <= c <= 90.
Proof.
  intros Hp.
  destruct (@clamp_cases pitch 0 90 ltac:(lra)) as [[_ E] | H];
    [contradiction | exact H].
Qed.

(** C4, amended: the pitch returned by [getPanelNormal] is the elevation
    of the sun in auto mode and the manual pitch in manual mode, unclamped;
    in auto mode on a sun position computed by [calculateSunPosition],
    from any input, it is [NaN] or lies in [[-5, 90]].  The pitch that
    [PanelAssembly] applies lies in [[0, 90]] in both modes whenever the
    pose's pitch is not [NaN]. *)
Theorem panel_pitch_ranges (state : SolarState) (sun : SunPosition) :
  pitch (getPanelNormal state sun)
  = match trackingMode state with
    | auto => elevation sun
    | manual => manualPitch state
    end /\
  (pitch (getPanelNormal state sun) <> NaN ->
   exists c,
     pa_pitchClamped (PanelAssembly (pitch (getPanelNormal state sun))
                                    (yaw (getPanelNormal state sun)))
     = Fin c /\ 0 <= c <= 90) /\
  (forall tz,
      trackingMode state = auto ->
      sun = calculateSunPosition tz state ->
      pitch (getPanelNormal state sun) = NaN \/
      exists p, pitch (getPanelNormal state sun) = Fin p /\ -5 <= p <= 90).
Proof.
  split; [reflexivity |]; split.
  - intros Hp; apply pitchClamped_range; assumption.
  - intros tz Hm ->.
    assert (Ep : pitch (getPanelNormal state (calculateSunPosition tz state))
                 = elevation (calculateSunPosition tz state))
      by (unfold getPanelNormal; cbv zeta; rewrite Hm; reflexivity).
    rewrite Ep; apply calculateSunPosition_elevation_cases.
Qed.

End PanelTheorems.

Section MetricsTheorems.

Local Open Scope R_scope.

Lemma dot_Fin (x y z x' y' z' : R) :
  dot (mkVector3 (Fin x) (Fin y) (Fin z)) (mkVector3 (Fin x') (Fin y') (Fin z'))
  = Fin (x * x' + y * y' + z * z').
Proof. reflexivity. Qed.

Lemma negate_Fin (x y z : R) :
  negate (mkVector3 (Fin x) (Fin y) (Fin z))
  = mkVector3 (Fin (- x)) (Fin (- y)) (Fin (- z)).
Proof. reflexivity. Qed.

Lemma clamp_unit_Fin (c : R) :
  -1 <= c <= 1 -> Math_min (Math_max (Fin c) (-1)) 1 = Fin c.
Proof.
  intros Hc; rewrite Math_max_Fin, Rltb_false by lra.
  rewrite Math_min_Fin, Rltb_false by lra; reflexivity.
Qed.

(** The clamp of line 329 on a finite dot product. *)
Lemma clamp_Fin (k : R) :
  Math_min (Math_max (Fin k) (-1)) 1 = Fin (Rmin (Rmax k (-1)) 1).
Proof.
  rewrite Math_max_Fin.
  destruct (Rltb_spec k (-1)).
  - rewrite Math_min_Fin, Rltb_false by lra.
    rewrite (Rmax_right k (-1)), Rmin_left by lra; reflexivity.
  - rewrite Math_min_Fin, (Rmax_left k (-1)) by lra.
    destruct (Rltb_spec 1 k).
    + rewrite Rmin_right by lra; reflexivity.
    + rewrite Rmin_left by lra; reflexivity.
Qed.

(** [Metrics] on a clamped cosine [c]. *)
Lemma Metrics_of_cos (sun : SunPosition) (panelNormal : Vector3) (c : R) :
  Math_min (Math_max (dot (vector sun) panelNormal) (-1)) 1 = Fin c ->
  -1 <= c <= 1 ->
  Metrics sun panelNormal
  = {| angleDeg := Fin (acos c * 180 / PI);
       effectiveIrradiance := Fin (Rmax 0 c) |}.
Proof.
  intros E Hc; unfold Metrics; cbv zeta; rewrite E.
  rewrite Math_acos_Fin, radToDeg_Fin, Math_cos_Fin, cos_acos by assumption.
  rewrite Math_max_Fin; f_equal; f_equal.
  destruct (Rltb_spec 0 c).
  - rewrite Rmax_right by lra; reflexivity.
  - rewrite Rmax_left by lra; reflexivity.
Qed.

(** C8: for a unit sun direction, [Metrics] against the same vector gives
    incidence 0 degrees and efficiency 1, and against the negated vector
    180 degrees and 0.  For every pair of unit vectors the dot product is
    clamped to [[-1, 1]] before [Math.acos], the efficiency is
    [max(0, cos(incidence))] and lies in [[0, 1]].  The clamp acts on both
    sides: a dot product of 1 or more, as rounding or a normal longer than
    1 can give, yields incidence 0 and efficiency 1 and not [NaN], and a
    dot product of -1 or less yields 180 degrees and 0. *)
Theorem incidence_metrics (sun : SunPosition) :
  unitVector (vector sun) ->
  Metrics sun (vector sun)
  = {| angleDeg := Fin 0; effectiveIrradiance := Fin 1 |} /\
  Metrics sun (negate (vector sun))
  = {| angleDeg := Fin 180; effectiveIrradiance := Fin 0 |} /\
  (forall panelNormal (k : R),
      dot (vector sun) panelNormal = Fin k ->
      Math_min (Math_max (dot (vector sun) panelNormal) (-1)) 1
      = Fin (Rmin (Rmax k (-1)) 1) /\
      angleDeg (Metrics sun panelNormal)
      = radToDeg (Math_acos (Fin (Rmin (Rmax k (-1)) 1))) /\
      (1 <= k ->
       Metrics sun panelNormal
       = {| angleDeg := Fin 0; effectiveIrradiance := Fin 1 |}) /\
      (k <= -1 ->
       Metrics sun panelNormal
       = {| angleDeg := Fin 180; effectiveIrradiance := Fin 0 |})) /\
  (forall panelNormal,
      unitVector panelNormal ->
      exists c ang eff,
        Math_min (Math_max (dot (vector sun) panelNormal) (-1)) 1 = Fin c /\
        -1 <= c <= 1 /\
        angleDeg (Metrics sun panelNormal) = radToDeg (Math_acos (Fin c)) /\
        angleDeg (Metrics sun panelNormal) = Fin ang /\
        0 <= ang <= 180 /\
        effectiveIrradiance (Metrics sun panelNormal)
        = Math_max 0 (Math_cos (degToRad (Fin ang))) /\
        effectiveIrradiance (Metrics sun panelNormal) = Fin eff /\
        eff = Rmax 0 (cos (ang * PI / 180)) /\
        0 <= eff <= 1).
Proof.
  intros (x & y & z & Ev & Hn).
  pose proof PI_RGT_0 as Hpi.
  split; [| split; [| split]].
  - rewrite (@Metrics_of_cos sun (vector sun) 1).
    + rewrite acos_1, Rmax_right by lra.
      f_equal; f_equal; field; lra.
    + rewrite Ev, dot_Fin, Hn; apply clamp_unit_Fin; lra.
    + lra.
  - rewrite (@Metrics_of_cos sun (negate (vector sun)) (-1)).
    + rewrite acos_m1, Rmax_left by lra.
      f_equal; f_equal; field; lra.
    + rewrite Ev, negate_Fin, dot_Fin.
      replace (x * - x + y * - y + z * - z) with (-1) by lra.
      apply clamp_unit_Fin; lra.
    + lra.
  - intros panelNormal k Ek.
    pose proof (clamp_Fin k) as Ec; rewrite <- Ek in Ec at 1.
    split; [exact Ec |]; split.
    + unfold Metrics; cbv zeta; cbv [angleDeg]; rewrite Ec; reflexivity.
    + split; intros Hk.
      * rewrite (@Metrics_of_cos sun panelNormal 1).
        -- rewrite acos_1, Rmax_right by lra.
           f_equal; f_equal; field; lra.
        -- rewrite Ec; f_equal.
           rewrite (Rmax_left k (-1)) by lra; apply Rmin_right; lra.
        -- lra.
      * rewrite (@Metrics_of_cos sun panelNormal (-1)).
        -- rewrite acos_m1, Rmax_left by lra.
           f_equal; f_equal; field; lra.
        -- rewrite Ec; f_equal.
           rewrite (Rmax_right k (-1)) by lra; apply Rmin_left; lra.
        -- lra.
  - intros panelNormal (x' & y' & z' & En & Hn').
    destruct (@clamp_cases (dot (vector sun) panelNormal) (-1) 1 ltac:(lra))
      as [[_ E] | [c [E Hc]]].
    { rewrite Ev, En, dot_Fin in E; discriminate E. }
    pose proof (acos_bound c) as Hb.
    assert (Hang : acos c * 180 / PI * PI / 180 = acos c) by (field; lra).
    exists c, (acos c * 180 / PI), (Rmax 0 c).
    rewrite (Metrics_of_cos sun panelNormal E Hc).
    cbv [angleDeg effectiveIrradiance].
    rewrite Math_acos_Fin, radToDeg_Fin, degToRad_Fin, Math_cos_Fin by assumption.
    rewrite Hang, cos_acos by assumption.
    repeat split; try lra; try assumption.
    + unfold Rdiv; apply Rmult_le_pos;
        [lra | left; apply Rinv_0_lt_compat; lra].
    + apply Rmult_le_reg_r with PI; [lra |].
      unfold Rdiv; rewrite Rmult_assoc, Rinv_l by lra; lra.
    + rewrite Math_max_Fin; f_equal.
      destruct (Rltb_spec 0 c);
        [rewrite Rmax_right by lra | rewrite Rmax_left by lra]; reflexivity.
    + apply Rmax_l.
    + apply Rmax_lub; lra.
Qed.

End MetricsTheorems.

(* ================================================================= *)
(** ** A sun at the zenith *)

Section Overhead.

Local Open Scope R_scope.

Lemma remR_small (a b : R) : 0 <= a < b -> remR a b = a.
Proof.
  intros [Ha Hb]; unfold remR, truncZ.
  assert (Hq : 0 <= a / b < 1).
  { pose proof (Rinv_0_lt_compat b ltac:(lra)) as Hi.
    assert (E : b * / b = 1) by (apply Rinv_r; lra).
    unfold Rdiv; split; nra. }
  rewrite Rltb_false by lra.
  rewrite (@floorZ_unique (a / b) 0) by lra; lra.
Qed.

Lemma remR_second (a b : R) : 0 <= a < b -> remR (a + b) b = a.
Proof.
  intros [Ha Hb]; unfold remR, truncZ.
  assert (Hq : 1 <= (a + b) / b < 2).
  { pose proof (Rinv_0_lt_compat b ltac:(lra)) as Hi.
    assert (E : b * / b = 1) by (apply Rinv_r; lra).
    unfold Rdiv; split; nra. }
  rewrite Rltb_false by lra.
  rewrite (@floorZ_unique ((a + b) / b) 1) by lra; lra.
Qed.

Lemma wrapSolarTime_id (a : R) :
  0 <= a < 1440 -> wrapSolarTime (Fin a) = Fin a.
Proof.
  intros Ha; unfold wrapSolarTime.
  rewrite rem_Fin, remR_small, add_Fin, rem_Fin, remR_second by lra.
  reflexivity.
Qed.

Lemma newDate_noon :
  newDate 0 "2024-06-21T12:00:00" = Some 1718971200000%Z.
Proof. vm_compute; reflexivity. Qed.

Lemma finite_noonCentury : finite noonCentury.
Proof.
  unfold noonCentury; rewrite newDate_noon.
  pose proof (@finite_julianDayWithTimeOf 1718971200000 (Fin 0)
                (finite_Fin 0)).
  finite_tac.
Qed.

Lemma overheadState_angles :
  exists l,
    solarAngles 0 overheadState = (Fin 0, Fin l, Fin l).
Proof.
  destruct (finite_sunDeclination finite_noonCentury) as [d Ed].
  destruct (finite_eqOfTime finite_noonCentury) as [e Ee].
  exists (d * PI / 180).
  unfold solarAngles; cbv zeta.
  change (date overheadState ++ "T" ++ time overheadState ++ ":00")
    with "2024-06-21T12:00:00".
  change (utcOffset overheadState) with (Fin 0).
  change (latitude overheadState) with (sunDeclination noonCentury).
  change (longitude overheadState) with (((0 - eqOfTime noonCentury) / 4)%js).
  fold noonCentury.
  rewrite Ed, Ee, newDate_noon, degToRad_Fin.
  unfold totalMinutesOf, getHours, getMinutes, getSeconds, getter.
  change (HourFromTime (LocalTime 0 1718971200000)) with 12%Z.
  change (MinFromTime (LocalTime 0 1718971200000)) with 0%Z.
  change (SecFromTime (LocalTime 0 1718971200000)) with 0%Z.
  rewrite !div_Fin by lra; fin_arith; rewrite div_Fin by lra; fin_arith.
  replace (12 * 60 + 0 + 0 / 60 + e + 4 * ((0 - e) / 4) - 60 * 0)
    with 720 by field.
  rewrite wrapSolarTime_id by lra.
  unfold hourAngleOf; cbv zeta.
  rewrite div_Fin by lra; fin_arith; rewrite lt_Fin, Rltb_false by lra.
  rewrite degToRad_Fin.
  replace ((720 / 4 - 180) * PI / 180) with 0 by field.
  reflexivity.
Qed.

Lemma overhead_zenith_angles (l : R) :
  zenithOf (cosZenithOf (Fin l) (Fin l) (Fin 0)) = Fin 0.
Proof.
  rewrite cosZenithOf_Fin, cos_0.
  replace (sin l * sin l + cos l * cos l * 1) with 1
    by (pose proof (sin2_cos2 l) as H; unfold Rsqr in H; lra).
  destruct (@zenithOf_Fin_le1 1 ltac:(lra)) as [E _].
  rewrite E, Rmax_left by lra; rewrite acos_1; reflexivity.
Qed.

Lemma overhead_elevation (l : R) :
  elevation (sunFromAngles (Fin 0) (Fin l) (Fin l)) = Fin 90.
Proof.
  rewrite sunFromAngles_elevation, overhead_zenith_angles.
  rewrite radToDeg_Fin, sub_Fin, Math_max_Fin.
  pose proof PI_RGT_0 as Hpi.
  replace (90 - 0 * 180 / PI) with 90 by (field; lra).
  rewrite Rltb_false by lra; reflexivity.
Qed.

Lemma overheadState_elevation :
  elevation (calculateSunPosition 0 overheadState) = Fin 90.
Proof.
  destruct overheadState_angles as [l E].
  unfold calculateSunPosition; rewrite E; apply overhead_elevation.
Qed.

End Overhead.

(* ================================================================= *)
(** ** The theorems at sample inputs *)

Section Witnesses.

Local Open Scope R_scope.

Lemma parisState_valid : validInput 60 parisState.
Proof.
  repeat split; try apply finite_Fin.
  rewrite parisState_stamp, newDate_paris_cet; discriminate.
Qed.

Lemma azimuth_zero_when_degenerate_witness :
  (Math_abs (azDenominatorOf 0 (zenithOf (cosZenithOf 0 0 0))) = Fin 0 /\
   0 <= 0.001 /\
   azimuth (sunFromAngles 0 0 0) = Fin 0) /\
  (elevation (calculateSunPosition 0 overheadState) = Fin 90 /\
   azimuth (calculateSunPosition 0 overheadState) = Fin 0).
Proof.
  assert (H1 : Math_abs (azDenominatorOf 0 (zenithOf (cosZenithOf 0 0 0)))
               = Fin 0).
  { rewrite overhead_zenith_angles; unfold azDenominatorOf.
    autorewrite with jsnum; rewrite sin_0, Rmult_0_r, Rabs_R0; reflexivity. }
  assert (H2 : 0 <= 0.001) by lra.
  split.
  - split; [exact H1 |]; split; [exact H2 |].
    exact (proj1 azimuth_zero_when_degenerate (Fin 0) (Fin 0) (Fin 0) 0 H1 H2).
  - split; [exact overheadState_elevation |].
    exact (proj2 azimuth_zero_when_degenerate 0%Z overheadState
             overheadState_elevation).
Defined.

Lemma azimuth_never_NaN_witness :
  (isNaN NaN = true /\ azimuth (sunFromAngles NaN 0 0) = Fin 0) /\
  (newDate 60 (date clearedState ++ "T" ++ time clearedState ++ ":00") = None /\
   azimuth (calculateSunPosition 60 clearedState) = Fin 0).
Proof.
  split.
  - split; [reflexivity |].
    exact (proj2 (proj1 (proj2 azimuth_never_NaN) NaN (Fin 0) (Fin 0)
                    eq_refl)).
  - assert (E : newDate 60 (date clearedState ++ "T" ++ time clearedState
                            ++ ":00") = None) by reflexivity.
    split; [exact E |].
    exact (proj2 (proj2 azimuth_never_NaN) 60%Z clearedState (or_introl E)).
Defined.

Lemma manual_pose_pass_through_witness :
  trackingMode manualInRange = manual /\
  pitch (getPanelNormal manualInRange nightSun) = Fin 30 /\
  yaw (getPanelNormal manualInRange nightSun) = Fin 180 /\
  pitch (getPanelNormal manualInRange nightSun)
  = Math_min (Math_max (manualPitch manualInRange) 0) 90 /\
  yaw (getPanelNormal manualInRange nightSun)
  = normalizeAngle (manualYaw manualInRange).
Proof.
  destruct (@manual_pose_pass_through manualInRange nightSun eq_refl)
    as (Hp & Hy & _ & _ & Hin).
  split; [reflexivity |]; split; [exact Hp |]; split; [exact Hy |].
  apply (Hin 30 180); [reflexivity | reflexivity | lra | lra].
Defined.

Lemma panel_pitch_ranges_witness :
  (pitch (getPanelNormal parisState nightSun) <> NaN /\
   exists c,
     pa_pitchClamped
       (PanelAssembly (pitch (getPanelNormal parisState nightSun))
                      (yaw (getPanelNormal parisState nightSun)))
     = Fin c /\ 0 <= c <= 90) /\
  (trackingMode parisState = auto /\
   (pitch (getPanelNormal parisState (calculateSunPosition 60 parisState))
    = NaN \/
    exists p,
      pitch (getPanelNormal parisState (calculateSunPosition 60 parisState))
      = Fin p /\ -5 <= p <= 90)).
Proof.
  assert (Hn : pitch (getPanelNormal parisState nightSun) <> NaN).
  { change (pitch (getPanelNormal parisState nightSun))
      with (elevation nightSun).
    rewrite nightSun_elevation; discriminate. }
  split.
  - split; [exact Hn |].
    exact (proj1 (proj2 (panel_pitch_ranges parisState nightSun)) Hn).
  - split; [reflexivity |].
    exact (proj2 (proj2 (panel_pitch_ranges parisState
                           (calculateSunPosition 60 parisState)))
             60%Z eq_refl eq_refl).
Defined.

Lemma upSun_unit : unitVector (vector upSun).
Proof. exists 0, 1, 0; split; [reflexivity | lra]. Qed.

Lemma incidence_metrics_witness :
  unitVector (vector upSun) /\
  unitVector (mkVector3 1 0 0) /\
  Metrics upSun (vector upSun)
  = {| angleDeg := Fin 0; effectiveIrradiance := Fin 1 |} /\
  Metrics upSun (negate (vector upSun))
  = {| angleDeg := Fin 180; effectiveIrradiance := Fin 0 |} /\
  (dot (vector upSun) (mkVector3 0 2 0) = Fin 2 /\
   1 <= 2 /\
   Metrics upSun (mkVector3 0 2 0)
   = {| angleDeg := Fin 0; effectiveIrradiance := Fin 1 |}) /\
  (dot (vector upSun) (mkVector3 0 (-2) 0) = Fin (-2) /\
   -2 <= -1 /\
   Metrics upSun (mkVector3 0 (-2) 0)
   = {| angleDeg := Fin 180; effectiveIrradiance := Fin 0 |}) /\
  exists eff,
    effectiveIrradiance (Metrics upSun (mkVector3 1 0 0)) = Fin eff /\
    0 <= eff <= 1.
Proof.
  assert (Hx : unitVector (mkVector3 1 0 0))
    by (exists 1, 0, 0; split; [reflexivity | lra]).
  assert (Eu : dot (vector upSun) (mkVector3 0 2 0) = Fin 2).
  { change (vector upSun) with (mkVector3 (Fin 0) (Fin 1) (Fin 0)).
    rewrite dot_Fin; f_equal; lra. }
  assert (Ed : dot (vector upSun) (mkVector3 0 (-2) 0) = Fin (-2)).
  { change (vector upSun) with (mkVector3 (Fin 0) (Fin 1) (Fin 0)).
    rewrite dot_Fin; f_equal; lra. }
  assert (Hu : 1 <= 2) by lra.
  assert (Hd : -2 <= -1) by lra.
  destruct (@incidence_metrics upSun upSun_unit)
    as (Hsame & Hopp & Hclamp & Hall).
  split; [exact upSun_unit |]; split; [exact Hx |].
  split; [exact Hsame |]; split; [exact Hopp |].
  split; [split; [exact Eu |]; split; [exact Hu |];
          exact (proj1 (proj2 (proj2 (Hclamp _ 2 Eu))) Hu) |].
  split; [split; [exact Ed |]; split; [exact Hd |];
          exact (proj2 (proj2 (proj2 (Hclamp _ (-2) Ed))) Hd) |].
  destruct (Hall _ Hx) as (c & ang & eff & _ & _ & _ & _ & _ & _ & E & _ & B).
  exists eff; split; assumption.
Defined.

End Witnesses.

(* ================================================================= *)
(** ** Further properties: angles and wrapping *)

Section WrappingProperties.

Local Open Scope R_scope.

Lemma floorMod_unique (a b r : R) (k : Z) :
  0 < b -> 0 <= r < b -> a = r + b * IZR k -> floorMod a b = r.
Proof.
  intros Hb Hr E; unfold floorMod.
  rewrite (@floorZ_unique (a / b) k); [lra |].
  pose proof (Rinv_0_lt_compat b Hb) as Hi.
  assert (Eb : b * / b = 1) by (apply Rinv_r; lra).
  assert (Eq : a / b = r * / b + IZR k).
  { unfold Rdiv; rewrite E; rewrite Rmult_plus_distr_r.
    replace (b * IZR k * / b) with (IZR k * (b * / b)) by ring.
    rewrite Eb; ring. }
  assert (H0 : 0 <= r * / b) by nra.
  assert (H1 : r * / b < 1) by nra.
  lra.
Qed.

Lemma remR_multiple (a b : R) : exists q : Z, remR a b = a - b * IZR q.
Proof. exists (truncZ (a / b)); reflexivity. Qed.

Lemma wrapSolarTime_Fin_floorMod (x : R) :
  wrapSolarTime (Fin x) = Fin (floorMod x 1440).
Proof.
  destruct (wrapSolarTime_Fin x) as [r [E Hr]]; rewrite E; f_equal.
  unfold wrapSolarTime in E.
  rewrite rem_Fin, add_Fin, rem_Fin in E by lra.
  injection E as E.
  destruct (remR_multiple x 1440) as [q1 E1].
  destruct (remR_multiple (remR x 1440 + 1440) 1440) as [q2 E2].
  symmetry; apply (@floorMod_unique x 1440 r (q1 + q2 - 1)); [lra | lra |].
  rewrite minus_IZR, plus_IZR; lra.
Qed.

Lemma floorMod_shift (a b : R) (k : Z) :
  0 < b -> floorMod (a + b * IZR k) b = floorMod a b.
Proof.
  intros Hb; pose proof (floorMod_range a Hb) as Hr.
  apply (@floorMod_unique _ b _ (floorZ (a / b) + k)); [lra | exact Hr |].
  unfold floorMod; rewrite plus_IZR; lra.
Qed.

(** X1: the double remainder of line 148 is the floor-modulo by 1440: the
    wrapped time lies in [[0, 1440)], is unchanged by whole days added to or
    taken from the true solar time, and is the time itself when that already
    lies in [[0, 1440)]. *)
Theorem wrapSolarTime_floorMod (a : R) (k : Z) :
  wrapSolarTime (Fin a) = Fin (floorMod a 1440) /\
  0 <= floorMod a 1440 < 1440 /\
  wrapSolarTime (Fin (a + 1440 * IZR k)) = wrapSolarTime (Fin a) /\
  wrapSolarTime (wrapSolarTime (Fin a)) = wrapSolarTime (Fin a).
Proof.
  pose proof (@floorMod_range a 1440 ltac:(lra)) as Hr.
  split; [apply wrapSolarTime_Fin_floorMod |]; split; [exact Hr |]; split.
  - rewrite !wrapSolarTime_Fin_floorMod; f_equal; apply floorMod_shift; lra.
  - rewrite !wrapSolarTime_Fin_floorMod; f_equal.
    apply (@floorMod_unique _ 1440 _ 0); [lra | exact Hr | lra].
Qed.

(** X2: [normalizeAngle] is idempotent, is the identity on [[0, 360)] and
    ignores whole turns added to or taken from the angle. *)
Theorem normalizeAngle_periodic (a : R) (k : Z) :
  normalizeAngle (normalizeAngle (Fin a)) = normalizeAngle (Fin a) /\
  normalizeAngle (Fin (a + 360 * IZR k)) = normalizeAngle (Fin a) /\
  (0 <= a < 360 -> normalizeAngle (Fin a) = Fin a).
Proof.
  pose proof (@floorMod_range a 360 ltac:(lra)) as Hr.
  rewrite !normalizeAngle_Fin; split; [| split].
  - f_equal; apply (@floorMod_unique _ 360 _ 0); [lra | exact Hr | lra].
  - f_equal.
    apply (@floorMod_unique _ 360 _ (floorZ (a / 360) + k)); [lra | exact Hr |].
    unfold floorMod; rewrite plus_IZR; lra.
  - intros Ha; f_equal.
    apply (@floorMod_unique _ 360 _ 0); lra.
Qed.

Lemma normalizeAngle_periodic_witness :
  0 <= 90 < 360 /\ normalizeAngle (Fin 90) = Fin 90.
Proof.
  assert (H : 0 <= 90 < 360) by lra.
  split; [exact H |].
  exact (proj2 (proj2 (normalizeAngle_periodic 90 0)) H).
Defined.

(** X3: on finite values [radToDeg] and [degToRad] undo each other, and a
    half turn is 180 degrees. *)
Theorem degToRad_radToDeg_inverse (a : R) :
  radToDeg (degToRad (Fin a)) = Fin a /\
  degToRad (radToDeg (Fin a)) = Fin a /\
  degToRad (Fin 180) = Math_PI /\
  radToDeg Math_PI = Fin 180.
Proof.
  pose proof PI_RGT_0 as Hpi.
  unfold Math_PI; repeat rewrite ?degToRad_Fin, ?radToDeg_Fin.
  repeat split; f_equal; field; lra.
Qed.

End WrappingProperties.

(* ================================================================= *)
(** ** Further properties: the sun position on every input *)

Section TotalProperties.

Local Open Scope R_scope.

Lemma orElse_zero_range (x : number) (hi : R) :
  0 < hi ->
  x = NaN \/ (exists r, x = Fin r /\ 0 <= r < hi) ->
  exists r, orElse x (Fin 0) = Fin r /\ 0 <= r < hi.
Proof.
  intros Hhi [-> | [r [-> Hr]]].
  - exists 0; split; [reflexivity | lra].
  - unfold orElse; destruct (Reqb_spec r 0).
    + exists 0; split; [reflexivity | lra].
    + exists r; split; [reflexivity | exact Hr].
Qed.

(** X4: the geometric mean longitude of the sun is a finite angle of
    [[0, 360)] for every Julian century, [NaN] and the infinities included:
    the [|| 0] of line 81 replaces a [NaN] by 0. *)
Theorem geomMeanLongSun_range (julianCentury : number) :
  exists r, geomMeanLongSun julianCentury = Fin r /\ 0 <= r < 360.
Proof.
  unfold geomMeanLongSun; apply orElse_zero_range; [lra |].
  apply normalizeAngle_cases.
Qed.

Lemma sin_product_cases (x y : number) :
  (Math_sin x * Math_sin y)%js = NaN \/
  exists a b, (Math_sin x * Math_sin y)%js = Fin (sin a * sin b).
Proof.
  destruct x as [| | | a]; try (left; reflexivity).
  destruct y as [| | | b]; try (left; reflexivity).
  right; exists a, b; reflexivity.
Qed.

Lemma sunDeclination_cases (julianCentury : number) :
  sunDeclination julianCentury = NaN \/
  exists d, sunDeclination julianCentury = Fin d /\ -90 <= d <= 90.
Proof.
  unfold sunDeclination.
  destruct (sin_product_cases (degToRad (obliqCorr julianCentury))
              (degToRad (sunAppLong julianCentury))) as [E | (a & b & E)];
    rewrite E; [left; reflexivity | right].
  rewrite Math_asin_Fin by apply sin_sin_unit.
  rewrite radToDeg_Fin; eexists; split; [reflexivity |].
  pose proof (asin_bound (sin a * sin b)) as Hb.
  pose proof PI_RGT_0 as Hpi.
  assert (Hi : 0 < / PI) by (apply Rinv_0_lt_compat; lra).
  assert (Ei : PI * / PI = 1) by (apply Rinv_r; lra).
  unfold Rdiv in *; split; nra.
Qed.

Lemma sunDeclination_finite_range (julianCentury : number) :
  finite julianCentury ->
  exists d, sunDeclination julianCentury = Fin d /\ -90 <= d <= 90.
Proof.
  intros Hf; destruct (sunDeclination_cases julianCentury) as [E | H];
    [| exact H].
  destruct (finite_sunDeclination Hf) as [d Ed]; congruence.
Qed.

(** X5: the solar declination is [NaN] or lies in [[-90, 90]] degrees for
    every Julian century, and it is a finite angle of that range for a
    Julian century within 100 centuries of J2000. *)
Theorem sunDeclination_range (julianCentury : number) :
  (sunDeclination julianCentury = NaN \/
   exists d, sunDeclination julianCentury = Fin d /\ -90 <= d <= 90) /\
  (forall T : R,
      julianCentury = Fin T -> -100 <= T <= 100 ->
      exists d, sunDeclination julianCentury = Fin d /\ -90 <= d <= 90).
Proof.
  split; [apply sunDeclination_cases |].
  intros T -> _.
  apply sunDeclination_finite_range, finite_Fin.
Qed.

Lemma sunDeclination_range_witness :
  -100 <= 0 <= 100 /\
  exists d, sunDeclination (Fin 0) = Fin d /\ -90 <= d <= 90.
Proof.
  assert (H : -100 <= 0 <= 100) by lra.
  split; [exact H |].
  exact (proj2 (sunDeclination_range (Fin 0)) 0 eq_refl H).
Defined.

Lemma sunFromAngles_total (haRad latRad declRad : number) :
  let sun := sunFromAngles haRad latRad declRad in
  (elevation sun = NaN /\ vector sun = mkVector3 NaN NaN NaN) \/
  (exists el,
      elevation sun = Fin el /\ -5 <= el <= 90 /\ unitVector (vector sun)).
Proof.
  cbv zeta.
  destruct (azimuthOf_range latRad declRad haRad) as [az [Ea _]].
  rewrite sunFromAngles_vector, sunFromAngles_azimuth, Ea.
  rewrite sunFromAngles_elevation.
  destruct (zenithOf_cases (cosZenithOf latRad declRad haRad))
    as [E | [z [E Hz]]]; rewrite E.
  - left; change (Math_max (90 - radToDeg NaN) (-5)) with NaN.
    change (degToRad NaN) with NaN; split; [reflexivity |].
    apply directionOf_NaN_pitch.
  - right; destruct (elevationClamped_range Hz) as [el [Ee He]].
    exists el; rewrite Ee; split; [reflexivity |]; split; [exact He |].
    rewrite !degToRad_Fin, directionOf_Fin.
    eexists _, _, _; split; [reflexivity | apply direction_norm].
Qed.

(** X6: for every state and host zone, the date readable or not, the
    result of [calculateSunPosition] is all or nothing: either the elevation
    is [NaN] and so are the three components of the direction vector, or the
    elevation is a finite angle of [[-5, 90]] and the vector has finite
    components of squared norm 1. *)
Theorem sun_position_all_or_nothing (tz : Z) (state : SolarState) :
  let sun := calculateSunPosition tz state in
  (elevation sun = NaN /\ vector sun = mkVector3 NaN NaN NaN) \/
  (exists el,
      elevation sun = Fin el /\ -5 <= el <= 90 /\ unitVector (vector sun)).
Proof.
  cbv zeta.
  destruct (calculateSunPosition_angles tz state) as (h & l & d & _ & ->).
  apply sunFromAngles_total.
Qed.

(** What the component computes from a stamp that gives the invalid
    date. *)
Lemma invalid_date_scene (tz : Z) (state : SolarState) :
  newDate tz (date state ++ "T" ++ time state ++ ":00") = None ->
  let scene := SolarTrackerSimulator tz state in
  azimuth (scene_sun scene) = Fin 0 /\
  elevation (scene_sun scene) = NaN /\
  vector (scene_sun scene) = mkVector3 NaN NaN NaN /\
  angleDeg (scene_metrics scene) = NaN /\
  effectiveIrradiance (scene_metrics scene) = NaN /\
  (trackingMode state = auto ->
   pitch (scene_panel scene) = NaN /\
   pa_pitchClamped (scene_angles scene) = NaN /\
   pa_pitchRad (scene_angles scene) = NaN).
Proof.
  intros E; cbv zeta.
  unfold SolarTrackerSimulator; cbv zeta.
  cbv [scene_sun scene_metrics scene_panel scene_angles].
  pose proof (solarAngles_NaN_input tz state (or_introl E)) as Hh.
  assert (Hha : fst (fst (solarAngles tz state)) = NaN)
    by (unfold solarAngles; cbv zeta; rewrite E; reflexivity).
  destruct (calculateSunPosition_angles tz state) as (h & l & d & Es & ->).
  rewrite Es in Hha; cbn [fst] in Hha; subst h.
  assert (Ec : cosZenithOf l d NaN = NaN).
  { destruct (cosZenithOf_cases l d NaN) as [Ec | (? & ? & ? & _ & _ & Ec)];
      [exact Ec | discriminate Ec]. }
  destruct (sunFromAngles_NaN NaN l d Ec) as [_ Ea].
  assert (Ee : elevation (sunFromAngles NaN l d) = NaN)
    by (rewrite sunFromAngles_elevation, Ec; reflexivity).
  assert (Ev : vector (sunFromAngles NaN l d) = mkVector3 NaN NaN NaN).
  { rewrite sunFromAngles_vector, Ee; apply directionOf_NaN_pitch. }
  assert (Hdot : forall n, dot (mkVector3 NaN NaN NaN) n = NaN) by reflexivity.
  split; [exact Ea |]; split; [exact Ee |]; split; [exact Ev |].
  unfold Metrics; cbv zeta; cbv [angleDeg effectiveIrradiance].
  rewrite Ev, Hdot.
  split; [reflexivity |]; split; [reflexivity |].
  intros Hm; unfold getPanelNormal, PanelAssembly; cbv zeta.
  cbv [pitch yaw pa_pitchClamped pa_pitchRad]; rewrite Hm, Ee.
  repeat split.
Qed.

(** A stamp is read only if it has the 19 characters of the format. *)
Lemma parseDateTime_length (s : string) :
  String.length s <> 19%nat -> parseDateTime s = None.
Proof.
  intros H; unfold parseDateTime.
  assert (El : List.length (list_ascii_of_string s) = String.length s).
  { clear H; induction s as [| c s IH]; [reflexivity |].
    cbn [list_ascii_of_string List.length String.length]; rewrite IH.
    reflexivity. }
  rewrite <- El in H; clear El.
  destruct (list_ascii_of_string s) as [| c l]; [reflexivity |].
  do 18 (destruct l as [| ? l]; [reflexivity |]).
  destruct l; [| reflexivity].
  exfalso; apply H; reflexivity.
Qed.

Lemma length_append (s t : string) :
  String.length (s ++ t) = (String.length s + String.length t)%nat.
Proof.
  induction s as [| c s IH]; [reflexivity |].
  cbn [append String.length]; rewrite IH; reflexivity.
Qed.

(** A value of the date field has 10 characters. *)
Lemma dateValue_length (s : string) : dateValue s -> String.length s = 10%nat.
Proof.
  intros [f E].
  destruct (Nat.eq_dec (String.length (s ++ "T00:00:00")) 19) as [H | H].
  - rewrite length_append in H; cbn [String.length] in H; lia.
  - rewrite (parseDateTime_length _ H) in E; discriminate E.
Qed.

(** With the time field cleared the stamp is [YYYY-MM-DDT:00], which is
    not a date-time. *)
Lemma cleared_time_stamp (tz : Z) (state : SolarState) :
  dateValue (date state) ->
  time state = ""%string ->
  newDate tz (date state ++ "T" ++ time state ++ ":00") = None.
Proof.
  intros Hd Et; unfold newDate.
  rewrite parseDateTime_length; [reflexivity |].
  rewrite Et, length_append, (dateValue_length Hd).
  cbn [append String.length]; lia.
Qed.

(** X7: when the time field is cleared while the date field holds a date,
    the stamp [YYYY-MM-DDT:00] is not a date-time and gives the invalid
    date: [calculateSunPosition] returns the azimuth 0, the elevation [NaN]
    and a vector of [NaN] components, and both figures of [Metrics] are
    [NaN]; in auto mode the pose and the clamped pitch of [PanelAssembly]
    are [NaN] as well. *)
Theorem cleared_time_gives_NaN (tz : Z) (state : SolarState) :
  dateValue (date state) ->
  time state = ""%string ->
  let scene := SolarTrackerSimulator tz state in
  newDate tz (date state ++ "T" ++ time state ++ ":00") = None /\
  azimuth (scene_sun scene) = Fin 0 /\
  elevation (scene_sun scene) = NaN /\
  vector (scene_sun scene) = mkVector3 NaN NaN NaN /\
  angleDeg (scene_metrics scene) = NaN /\
  effectiveIrradiance (scene_metrics scene) = NaN /\
  (trackingMode state = auto ->
   pitch (scene_panel scene) = NaN /\
   pa_pitchClamped (scene_angles scene) = NaN /\
   pa_pitchRad (scene_angles scene) = NaN).
Proof.
  intros Hd Et; cbv zeta.
  pose proof (cleared_time_stamp tz state Hd Et) as E.
  split; [exact E |].
  apply (invalid_date_scene tz state E).
Qed.

Lemma cleared_time_gives_NaN_witness :
  dateValue (date clearedState) /\
  time clearedState = ""%string /\
  trackingMode clearedState = auto /\
  elevation (scene_sun (SolarTrackerSimulator 60 clearedState)) = NaN /\
  effectiveIrradiance (scene_metrics (SolarTrackerSimulator 60 clearedState))
  = NaN /\
  pa_pitchClamped (scene_angles (SolarTrackerSimulator 60 clearedState)) = NaN.
Proof.
  assert (Hd : dateValue (date clearedState))
    by (exists (mkFields 2024 6 21 0 0 0); reflexivity).
  destruct (@cleared_time_gives_NaN 60%Z clearedState Hd eq_refl)
    as (_ & _ & He & _ & _ & Hm & Hp).
  destruct (Hp eq_refl) as (_ & Hc & _).
  split; [exact Hd |]; split; [reflexivity |]; split; [reflexivity |].
  split; [exact He |]; split; [exact Hm | exact Hc].
Defined.

End TotalProperties.

(* ================================================================= *)
(** ** Further properties: azimuth and elevation along the day *)

Section DayProperties.

Local Open Scope R_scope.

Lemma floorMod_small (a b : R) : 0 <= a < b -> floorMod a b = a.
Proof. intros H; apply (@floorMod_unique a b a 0); lra. Qed.

Lemma floorMod_self (b : R) : 0 < b -> floorMod b b = 0.
Proof. intros H; apply (@floorMod_unique b b 0 1); lra. Qed.

Lemma normalizeAngle_radToDeg (a : R) :
  0 <= a <= 2 * PI ->
  exists r, normalizeAngle (radToDeg (Fin a)) = Fin r /\
            ((a <= PI -> r = a * 180 / PI /\ 0 <= r <= 180) /\
             (PI <= a -> r = 0 \/ 180 <= r < 360)).
Proof.
  intros Ha; pose proof PI_RGT_0 as Hpi.
  assert (Hi : 0 < / PI) by (apply Rinv_0_lt_compat; lra).
  assert (Ei : PI * / PI = 1) by (apply Rinv_r; lra).
  rewrite radToDeg_Fin, normalizeAngle_Fin.
  eexists; split; [reflexivity |].
  set (A := a * 180 / PI).
  assert (HA : 0 <= A <= 360) by (unfold A, Rdiv; split; nra).
  split.
  - intros Hle; assert (A <= 180) by (unfold A, Rdiv; nra).
    rewrite floorMod_small by lra; lra.
  - intros Hge; assert (180 <= A) by (unfold A, Rdiv; nra).
    destruct (Req_dec_T A 360) as [E | N].
    + left; rewrite E; apply floorMod_self; lra.
    + right; rewrite floorMod_small by lra; lra.
Qed.

(** The guard of line 166 and the angle of lines 167-177 do not depend on
    the hour angle; the angle lies in [[0, PI]]. *)
Lemma azimuthOf_shape (l d z : R) :
  (forall haRad, azimuthOf (Fin l) (Fin d) haRad (Fin z) = Fin 0) \/
  exists a, 0 <= a <= PI /\
    forall haRad,
      azimuthOf (Fin l) (Fin d) haRad (Fin z)
      = normalizeAngle
          (radToDeg
             (if (Math_sin haRad >? 0)%js then Fin (2 * PI - a) else Fin a)).
Proof.
  unfold azimuthOf; cbv zeta.
  destruct (Math_abs (azDenominatorOf (Fin l) (Fin z)) >? 0.001)%js eqn:G;
    [right | left; reflexivity].
  unfold azDenominatorOf in *; autorewrite with jsnum in G |- *.
  assert (Hden : cos l * sin z <> 0).
  { intros E; rewrite E, Rabs_R0 in G.
    rewrite Rltb_false in G by lra; discriminate. }
  rewrite div_Fin by assumption.
  destruct (@clamp_cases (Fin ((sin l * cos z - sin d) / (cos l * sin z)))
              (-1) 1 ltac:(lra)) as [[_ E] | [k [E Hk]]]; [discriminate |].
  rewrite E, Math_acos_Fin by assumption.
  exists (acos k); split; [apply acos_bound |].
  intros haRad; destruct (Math_sin haRad >? Fin 0)%js; [| reflexivity].
  unfold Math_PI; autorewrite with jsnum; reflexivity.
Qed.

Lemma azimuthOf_guarded (l d : R) (haRad : number) (z : R) :
  azimuthOf (Fin l) (Fin d) haRad (Fin z) = Fin 0 \/
  exists a, 0 <= a <= PI /\
    azimuthOf (Fin l) (Fin d) haRad (Fin z)
    = normalizeAngle
        (radToDeg (if (Math_sin haRad >? 0)%js then Fin (2 * PI - a) else Fin a)).
Proof.
  destruct (azimuthOf_shape l d z) as [H | (a & Ha & H)]; [left | right]; eauto.
Qed.

Lemma azimuth_half_plane (haRad latRad declRad : number) :
  exists r,
    azimuth (sunFromAngles haRad latRad declRad) = Fin r /\
    ((Math_sin haRad >? 0)%js = true -> r = 0 \/ 180 <= r < 360) /\
    ((Math_sin haRad >? 0)%js = false -> 0 <= r <= 180).
Proof.
  rewrite sunFromAngles_azimuth.
  assert (Hzero : exists r, Fin 0 = Fin r /\
            ((Math_sin haRad >? 0)%js = true -> r = 0 \/ 180 <= r < 360) /\
            ((Math_sin haRad >? 0)%js = false -> 0 <= r <= 180))
    by (exists 0; split; [reflexivity | split; intros _; lra]).
  destruct (cosZenithOf_cases latRad declRad haRad)
    as [E | (l & d & h & -> & -> & ->)].
  { rewrite E, zenithOf_NaN, azimuthOf_zenith_NaN; exact Hzero. }
  destruct (zenithOf_cases (cosZenithOf (Fin l) (Fin d) (Fin h)))
    as [E | [z [E _]]]; rewrite E.
  { rewrite azimuthOf_zenith_NaN; exact Hzero. }
  destruct (azimuthOf_guarded l d (Fin h) z) as [E0 | (a & Ha & Ea)].
  { rewrite E0; exact Hzero. }
  rewrite Ea; pose proof PI_RGT_0 as Hpi.
  destruct (Math_sin (Fin h) >? 0)%js.
  - destruct (@normalizeAngle_radToDeg (2 * PI - a) ltac:(lra))
      as (r & Er & _ & Hge).
    exists r; split; [exact Er |]; split; [intros _; apply Hge; lra |].
    discriminate.
  - destruct (@normalizeAngle_radToDeg a ltac:(lra)) as (r & Er & Hle & _).
    exists r; split; [exact Er |]; split; [discriminate |].
    intros _; apply Hle; lra.
Qed.

Lemma hourAngle_sign (r : R) :
  0 <= r < 1440 ->
  exists h,
    degToRad (hourAngleOf (Fin r)) = Fin h /\
    (r <= 720 -> (Math_sin (Fin h) >? 0)%js = false) /\
    (720 < r -> (Math_sin (Fin h) >? 0)%js = true).
Proof.
  intros Hr; pose proof PI_RGT_0 as Hpi.
  unfold hourAngleOf; cbv zeta.
  rewrite div_Fin by lra; rewrite sub_Fin, lt_Fin, Rltb_false by lra.
  rewrite degToRad_Fin; eexists; split; [reflexivity |].
  rewrite Math_sin_Fin, gt_Fin.
  set (h := (r / 4 - 180) * PI / 180).
  split; intros H.
  - apply Rltb_false.
    assert (Hh : - PI <= h <= 0) by (unfold h; split; nra).
    replace h with (- (- h)) by ring; rewrite sin_neg.
    pose proof (sin_ge_0 (- h) ltac:(lra) ltac:(lra)); lra.
  - apply Rltb_true.
    assert (Hh : 0 < h < PI) by (unfold h; split; nra).
    apply sin_gt_0; lra.
Qed.

(** X8: with the true solar time wrapped into [[0, 1440)] minutes, the
    azimuth is in the eastern half [[0, 180]] up to solar noon (720) and
    afterwards in the western half [[180, 360)], or 0 in the degenerate
    case, whatever the latitude and the declination. *)
Theorem azimuth_east_before_noon (trueSolarTime : R) (latRad declRad : number) :
  0 <= trueSolarTime < 1440 ->
  exists az,
    azimuth (sunFromAngles (degToRad (hourAngleOf (Fin trueSolarTime)))
                           latRad declRad) = Fin az /\
    (trueSolarTime <= 720 -> 0 <= az <= 180) /\
    (720 < trueSolarTime -> az = 0 \/ 180 <= az < 360).
Proof.
  intros Hr; destruct (hourAngle_sign Hr) as (h & Eh & Hle & Hgt).
  rewrite Eh.
  destruct (azimuth_half_plane (Fin h) latRad declRad) as (az & Ea & Ht & Hf).
  exists az; split; [exact Ea |]; split; intros H; auto.
Qed.

Lemma azimuth_east_before_noon_witness :
  0 <= 600 < 1440 /\
  exists az,
    azimuth (sunFromAngles (degToRad (hourAngleOf (Fin 600))) 0 0) = Fin az /\
    0 <= az <= 180.
Proof.
  assert (H : 0 <= 600 < 1440) by lra.
  split; [exact H |].
  destruct (@azimuth_east_before_noon 600 (Fin 0) (Fin 0) H)
    as (az & Ea & Hle & _).
  exists az; split; [exact Ea | apply Hle; lra].
Defined.

(** X9: the path of the sun is symmetric about solar noon: opposite hour
    angles give the same elevation, and for a positive sine of the hour
    angle the azimuth is the mirror image, [360 - azimuth] normalized, of
    the azimuth at the opposite hour angle. *)
Theorem sun_path_mirror (h l d : R) :
  elevation (sunFromAngles (Fin (- h)) (Fin l) (Fin d))
  = elevation (sunFromAngles (Fin h) (Fin l) (Fin d)) /\
  (0 < sin h ->
   azimuth (sunFromAngles (Fin h) (Fin l) (Fin d))
   = normalizeAngle
       (360 - azimuth (sunFromAngles (Fin (- h)) (Fin l) (Fin d)))%js).
Proof.
  assert (Ec : cosZenithOf (Fin l) (Fin d) (Fin (- h))
               = cosZenithOf (Fin l) (Fin d) (Fin h))
    by (rewrite !cosZenithOf_Fin, cos_neg; reflexivity).
  split; [rewrite !sunFromAngles_elevation, Ec; reflexivity |].
  intros Hs; rewrite !sunFromAngles_azimuth, Ec.
  destruct (zenith_Fin l d h) as [z [Ez _]]; rewrite Ez.
  pose proof PI_RGT_0 as Hpi.
  assert (Hp : (Math_sin (Fin h) >? 0)%js = true)
    by (rewrite Math_sin_Fin, gt_Fin; apply Rltb_true; exact Hs).
  assert (Hn : (Math_sin (Fin (- h)) >? 0)%js = false)
    by (rewrite Math_sin_Fin, gt_Fin, sin_neg; apply Rltb_false; lra).
  destruct (azimuthOf_shape l d z) as [H0 | (a & Ha & H)].
  - rewrite !H0, sub_Fin, normalizeAngle_Fin; f_equal.
    replace (360 - 0) with 360 by ring; symmetry; apply floorMod_self; lra.
  - rewrite !H, Hp, Hn.
    destruct (@normalizeAngle_radToDeg a ltac:(lra)) as (r & Er & Hle & _).
    destruct (Hle ltac:(lra)) as [Er' _].
    rewrite Er, sub_Fin, radToDeg_Fin; f_equal; f_equal.
    rewrite Er'; field; lra.
Qed.

Lemma sun_path_mirror_witness :
  0 < sin (PI / 2) /\
  azimuth (sunFromAngles (Fin (PI / 2)) (Fin 0) (Fin 0))
  = normalizeAngle
      (360 - azimuth (sunFromAngles (Fin (- (PI / 2))) (Fin 0) (Fin 0)))%js.
Proof.
  assert (H : 0 < sin (PI / 2)) by (rewrite sin_PI2; lra).
  split; [exact H |].
  exact (proj2 (sun_path_mirror (PI / 2) 0 0) H).
Defined.

Lemma acos_decreasing (x y : R) :
  -1 <= x <= 1 -> -1 <= y <= 1 -> x <= y -> acos y <= acos x.
Proof.
  intros Hx Hy Hle.
  pose proof (acos_bound x) as Bx; pose proof (acos_bound y) as By.
  apply cos_decr_0; try lra.
  rewrite !cos_acos by assumption; exact Hle.
Qed.

Lemma elevation_monotone (c1 c2 : R) :
  c1 <= c2 -> c2 <= 1 ->
  exists e1 e2,
    Math_max (90 - radToDeg (zenithOf (Fin c1))) (-5) = Fin e1 /\
    Math_max (90 - radToDeg (zenithOf (Fin c2))) (-5) = Fin e2 /\
    e1 <= e2.
Proof.
  intros Hle H1; pose proof PI_RGT_0 as Hpi.
  destruct (@zenithOf_Fin_le1 c1 ltac:(lra)) as [E1 B1].
  destruct (@zenithOf_Fin_le1 c2 H1) as [E2 B2].
  rewrite E1, E2, !radToDeg_Fin, !sub_Fin, !Math_max_Fin.
  eexists _, _; split; [reflexivity |]; split; [reflexivity |].
  assert (Hz : acos (Rmax c2 (-1)) <= acos (Rmax c1 (-1))).
  { apply acos_decreasing.
    - split; [apply Rmax_r | apply Rmax_lub; lra].
    - split; [apply Rmax_r | apply Rmax_lub; lra].
    - apply Rmax_lub; [| apply Rmax_r].
      apply Rle_trans with c2; [exact Hle | apply Rmax_l]. }
  assert (Hi : 0 < / PI) by (apply Rinv_0_lt_compat; lra).
  assert (Hd : acos (Rmax c2 (-1)) * 180 / PI <= acos (Rmax c1 (-1)) * 180 / PI)
    by (unfold Rdiv; nra).
  destruct (Rltb_spec (90 - acos (Rmax c1 (-1)) * 180 / PI) (-5));
    destruct (Rltb_spec (90 - acos (Rmax c2 (-1)) * 180 / PI) (-5)); lra.
Qed.

(** X10: for a latitude within [[-90, 90]] degrees and the declination of
    any Julian century, whenever the elevation at an hour angle and the
    elevation at hour angle 0 are both numbers, the first is at most the
    second: the sun culminates at solar noon.  (Either may be [NaN], the
    noon one when the cosine of the zenith comes out above 1.) *)
Theorem elevation_max_at_solar_noon
  (lat h : R) (julianCentury : number) (e eNoon : R) :
  -90 <= lat <= 90 ->
  let latRad := degToRad (Fin lat) in
  let declRad := degToRad (sunDeclination julianCentury) in
  elevation (sunFromAngles (Fin h) latRad declRad) = Fin e ->
  elevation (sunFromAngles (Fin 0) latRad declRad) = Fin eNoon ->
  e <= eNoon.
Proof.
  intros Hlat; cbv zeta; pose proof PI_RGT_0 as Hpi.
  destruct (sunDeclination_cases julianCentury) as [Ed | [d [Ed Hd]]];
    rewrite Ed.
  { rewrite degToRad_Fin, !sunFromAngles_elevation.
    change (degToRad NaN) with NaN.
    destruct (cosZenithOf_cases (Fin (lat * PI / 180)) NaN (Fin h))
      as [Ec | (? & ? & ? & _ & Ec & _)]; [| discriminate Ec].
    rewrite Ec, zenithOf_NaN.
    change (Math_max (90 - radToDeg NaN) (-5)) with NaN.
    intros E; discriminate E. }
  rewrite !degToRad_Fin, !sunFromAngles_elevation, !cosZenithOf_Fin.
  set (l := lat * PI / 180); set (dr := d * PI / 180).
  assert (Hl : - (PI / 2) <= l <= PI / 2) by (unfold l; split; nra).
  assert (Hdr : - (PI / 2) <= dr <= PI / 2) by (unfold dr; split; nra).
  pose proof (cos_ge_0 l ltac:(lra) ltac:(lra)) as Cl.
  pose proof (cos_ge_0 dr ltac:(lra) ltac:(lra)) as Cd.
  pose proof (COS_bound h) as Ch.
  rewrite cos_0.
  assert (Hle : sin l * sin dr + cos l * cos dr * cos h
                <= sin l * sin dr + cos l * cos dr * 1).
  { assert (0 <= cos l * cos dr) by (apply Rmult_le_pos; assumption).
    nra. }
  assert (H1 : sin l * sin dr + cos l * cos dr * 1 <= 1).
  { pose proof (cosZenith_bound l dr 0) as B; rewrite cos_0 in B; lra. }
  destruct (elevation_monotone Hle H1) as (e1 & e2 & E1 & E2 & H12).
  rewrite E1, E2; intros Ee En.
  injection Ee as <-; injection En as <-; exact H12.
Qed.

Lemma elevation_max_at_solar_noon_witness :
  -90 <= 45 <= 90 /\
  exists e eNoon,
    elevation (sunFromAngles (Fin 1) (degToRad (Fin 45))
                 (degToRad (sunDeclination (Fin 0)))) = Fin e /\
    elevation (sunFromAngles (Fin 0) (degToRad (Fin 45))
                 (degToRad (sunDeclination (Fin 0)))) = Fin eNoon /\
    e <= eNoon.
Proof.
  assert (H : -90 <= 45 <= 90) by lra.
  split; [exact H |].
  destruct (@sunDeclination_finite_range (Fin 0) (finite_Fin 0)) as [d [Ed _]].
  assert (E1 : exists e,
             elevation (sunFromAngles (Fin 1) (degToRad (Fin 45))
                          (degToRad (sunDeclination (Fin 0)))) = Fin e).
  { rewrite Ed, !degToRad_Fin.
    destruct (sunFromAngles_range 1 (45 * PI / 180) (d * PI / 180))
      as (az & el & _ & _ & Ee & _); exists el; exact Ee. }
  assert (E2 : exists e,
             elevation (sunFromAngles (Fin 0) (degToRad (Fin 45))
                          (degToRad (sunDeclination (Fin 0)))) = Fin e).
  { rewrite Ed, !degToRad_Fin.
    destruct (sunFromAngles_range 0 (45 * PI / 180) (d * PI / 180))
      as (az & el & _ & _ & Ee & _); exists el; exact Ee. }
  destruct E1 as [e E1]; destruct E2 as [eNoon E2].
  exists e, eNoon; split; [exact E1 |]; split; [exact E2 |].
  exact (@elevation_max_at_solar_noon 45 1 (Fin 0) e eNoon H E1 E2).
Defined.

Lemma solarAngles_latRad (tz : Z) (state : SolarState) :
  snd (fst (solarAngles tz state)) = degToRad (latitude state).
Proof. reflexivity. Qed.

Lemma azimuthOf_cos_zero (l : R) (declRad haRad zenith : number) :
  cos l = 0 -> azimuthOf (Fin l) declRad haRad zenith = Fin 0.
Proof.
  intros E; apply azimuthOf_degenerate; unfold azDenominatorOf.
  rewrite Math_cos_Fin, E.
  destruct (Math_sin zenith) as [| | | s] eqn:Es; try reflexivity.
  - destruct zenith; discriminate Es.
  - destruct zenith; discriminate Es.
  - rewrite mul_Fin, Math_abs_Fin, gt_Fin, Rmult_0_l, Rabs_R0.
    apply Rltb_false; lra.
Qed.

(** X11: at the poles, latitude 90 or -90, the azimuth returned by
    [calculateSunPosition] is 0 for every date, time, longitude, offset and
    host zone. *)
Theorem azimuth_zero_at_poles (tz : Z) (state : SolarState) :
  latitude state = Fin 90 \/ latitude state = Fin (-90) ->
  azimuth (calculateSunPosition tz state) = Fin 0.
Proof.
  intros H; pose proof (solarAngles_latRad tz state) as El.
  destruct (calculateSunPosition_angles tz state) as (h & l & d & Es & ->).
  rewrite Es in El; cbn [fst snd] in El; subst l.
  rewrite sunFromAngles_azimuth.
  destruct H as [-> | ->]; rewrite degToRad_Fin; apply azimuthOf_cos_zero.
  - replace (90 * PI / 180) with (PI / 2) by field; apply cos_PI2.
  - replace (-90 * PI / 180) with (- (PI / 2)) by field.
    rewrite cos_neg; apply cos_PI2.
Qed.

Lemma azimuth_zero_at_poles_witness :
  (latitude poleState = Fin 90 \/ latitude poleState = Fin (-90)) /\
  azimuth (calculateSunPosition 0 poleState) = Fin 0.
Proof.
  assert (H : latitude poleState = Fin 90 \/ latitude poleState = Fin (-90))
    by (left; reflexivity).
  split; [exact H |].
  exact (@azimuth_zero_at_poles 0%Z poleState H).
Defined.

End DayProperties.

(* ================================================================= *)
(** ** Further properties: the panel, the metrics and the scene *)

Section PanelProperties.

Local Open Scope R_scope.

Lemma IZR_cases (k : Z) :
  exists n : nat, IZR k = INR n \/ IZR k = - INR n.
Proof.
  destruct (Z_le_gt_dec 0 k) as [H | H].
  - exists (Z.to_nat k); left.
    rewrite INR_IZR_INZ, Z2Nat.id by exact H; reflexivity.
  - exists (Z.to_nat (- k)); right.
    rewrite INR_IZR_INZ, Z2Nat.id, opp_IZR by lia; ring.
Qed.

Lemma sin_turns (x : R) (k : Z) : sin (x - 2 * IZR k * PI) = sin x.
Proof.
  destruct (IZR_cases k) as [n [E | E]]; rewrite E.
  - rewrite <- (sin_period (x - 2 * INR n * PI) n); f_equal; ring.
  - replace (x - 2 * - INR n * PI) with (x + 2 * INR n * PI) by ring.
    apply sin_period.
Qed.

Lemma cos_turns (x : R) (k : Z) : cos (x - 2 * IZR k * PI) = cos x.
Proof.
  destruct (IZR_cases k) as [n [E | E]]; rewrite E.
  - rewrite <- (cos_period (x - 2 * INR n * PI) n); f_equal; ring.
  - replace (x - 2 * - INR n * PI) with (x + 2 * INR n * PI) by ring.
    apply cos_period.
Qed.

Lemma getPanelNormal_vector (state : SolarState) (sun : SunPosition) :
  panel_vector (getPanelNormal state sun)
  = directionOf (degToRad (yaw (getPanelNormal state sun)))
                (degToRad (pitch (getPanelNormal state sun))).
Proof. reflexivity. Qed.

(** X12: for a finite pitch [p] and yaw [y] in degrees, in either mode, the
    normal returned by [getPanelNormal] is
    [(sin y cos p, sin p, cos y cos p)], a vector of length 1. *)
Theorem panel_normal_unit (state : SolarState) (sun : SunPosition) (p y : R) :
  pitch (getPanelNormal state sun) = Fin p ->
  yaw (getPanelNormal state sun) = Fin y ->
  panel_vector (getPanelNormal state sun)
  = mkVector3 (Fin (sin (y * PI / 180) * cos (p * PI / 180)))
              (Fin (sin (p * PI / 180)))
              (Fin (cos (y * PI / 180) * cos (p * PI / 180))) /\
  unitVector (panel_vector (getPanelNormal state sun)) /\
  length (panel_vector (getPanelNormal state sun)) = Fin 1.
Proof.
  intros Ep Ey.
  rewrite getPanelNormal_vector, Ep, Ey, !degToRad_Fin, directionOf_Fin.
  split; [reflexivity |]; split.
  - eexists _, _, _; split; [reflexivity | apply direction_norm].
  - apply length_unit, direction_norm.
Qed.

Lemma panel_normal_unit_witness :
  pitch (getPanelNormal manualInRange upSun) = Fin 30 /\
  yaw (getPanelNormal manualInRange upSun) = Fin 180 /\
  length (panel_vector (getPanelNormal manualInRange upSun)) = Fin 1.
Proof.
  split; [reflexivity |]; split; [reflexivity |].
  exact (proj2 (proj2 (@panel_normal_unit manualInRange upSun 30 180
                         eq_refl eq_refl))).
Defined.

(** X13: for finite pitch and yaw the normal computed by [getPanelNormal]
    from the raw yaw is the normal at the yaw that [PanelAssembly] applies,
    the yaw normalized into [[0, 360)]: whole turns of the yaw do not move
    the normal. *)
Theorem panel_normal_yaw_normalized
  (state : SolarState) (sun : SunPosition) (p y : R) :
  pitch (getPanelNormal state sun) = Fin p ->
  yaw (getPanelNormal state sun) = Fin y ->
  panel_vector (getPanelNormal state sun)
  = directionOf
      (pa_yawRad (PanelAssembly (pitch (getPanelNormal state sun))
                                (yaw (getPanelNormal state sun))))
      (degToRad (pitch (getPanelNormal state sun))).
Proof.
  intros Ep Ey; pose proof PI_RGT_0 as Hpi.
  rewrite getPanelNormal_vector; unfold PanelAssembly; cbv zeta.
  cbv [pa_yawRad]; rewrite Ep, Ey, normalizeAngle_Fin, !degToRad_Fin.
  rewrite !directionOf_Fin.
  unfold floorMod.
  replace ((y - 360 * IZR (floorZ (y / 360))) * PI / 180)
    with (y * PI / 180 - 2 * IZR (floorZ (y / 360)) * PI) by field.
  rewrite sin_turns, cos_turns; reflexivity.
Qed.

Lemma panel_normal_yaw_normalized_witness :
  pitch (getPanelNormal manualState upSun) = Fin 30 /\
  yaw (getPanelNormal manualState upSun) = Fin 360 /\
  panel_vector (getPanelNormal manualState upSun)
  = directionOf
      (pa_yawRad (PanelAssembly (pitch (getPanelNormal manualState upSun))
                                (yaw (getPanelNormal manualState upSun))))
      (degToRad (pitch (getPanelNormal manualState upSun))).
Proof.
  split; [reflexivity |]; split; [reflexivity |].
  exact (@panel_normal_yaw_normalized manualState upSun 30 360 eq_refl eq_refl).
Defined.

Lemma Metrics_same_unit (sun : SunPosition) :
  unitVector (vector sun) ->
  Metrics sun (vector sun)
  = {| angleDeg := Fin 0; effectiveIrradiance := Fin 1 |}.
Proof.
  intros (x & y & z & Ev & Hn); pose proof PI_RGT_0 as Hpi.
  rewrite (@Metrics_of_cos sun (vector sun) 1).
  - rewrite acos_1, Rmax_right by lra.
    f_equal; f_equal; field; lra.
  - rewrite Ev, dot_Fin, Hn; apply clamp_unit_Fin; lra.
  - lra.
Qed.

(** X14: in auto mode, for every input, the panel normal is the sun's
    direction vector and [PanelAssembly] turns the panel to the azimuth.
    The rest is all or nothing: either the elevation is [NaN], and so are
    both figures of [Metrics] and the pitch applied by [PanelAssembly]; or
    the elevation is an angle of [[-5, 90]], [Metrics] shows incidence 0
    and efficiency 1, and the panel is tilted by the elevation floored at
    0. *)
Theorem auto_mode_tracks_sun (tz : Z) (state : SolarState) :
  trackingMode state = auto ->
  let scene := SolarTrackerSimulator tz state in
  panel_vector (scene_panel scene) = vector (scene_sun scene) /\
  (exists az,
      azimuth (scene_sun scene) = Fin az /\
      0 <= az < 360 /\
      pa_yawRad (scene_angles scene) = Fin (az * PI / 180)) /\
  ((elevation (scene_sun scene) = NaN /\
    scene_metrics scene = {| angleDeg := NaN; effectiveIrradiance := NaN |} /\
    pa_pitchClamped (scene_angles scene) = NaN) \/
   (exists el,
       elevation (scene_sun scene) = Fin el /\
       -5 <= el <= 90 /\
       scene_metrics scene
       = {| angleDeg := Fin 0; effectiveIrradiance := Fin 1 |} /\
       pa_pitchClamped (scene_angles scene) = Fin (Rmax el 0))).
Proof.
  intros Hm; cbv zeta; unfold SolarTrackerSimulator; cbv zeta.
  cbv [scene_panel scene_sun scene_metrics scene_angles].
  assert (Ep : pitch (getPanelNormal state (calculateSunPosition tz state))
               = elevation (calculateSunPosition tz state))
    by (unfold getPanelNormal; cbv zeta; rewrite Hm; reflexivity).
  assert (Ey : yaw (getPanelNormal state (calculateSunPosition tz state))
               = azimuth (calculateSunPosition tz state))
    by (unfold getPanelNormal; cbv zeta; rewrite Hm; reflexivity).
  assert (Ev : panel_vector (getPanelNormal state (calculateSunPosition tz state))
               = vector (calculateSunPosition tz state)).
  { rewrite getPanelNormal_vector, Ep, Ey.
    destruct (calculateSunPosition_angles tz state) as (h & l & d & _ & ->).
    rewrite sunFromAngles_vector; reflexivity. }
  split; [exact Ev |].
  rewrite Ev, Ep, Ey.
  destruct (calculateSunPosition_angles tz state) as (h & l & d & _ & ->).
  split.
  - destruct (azimuthOf_range l d h) as [az [Ea Ba]].
    exists az; rewrite sunFromAngles_azimuth, Ea.
    split; [reflexivity |]; split; [exact Ba |].
    unfold PanelAssembly; cbv zeta; cbv [pa_yawRad].
    rewrite normalizeAngle_Fin, floorMod_small, degToRad_Fin by lra.
    reflexivity.
  - destruct (sunFromAngles_total h l d) as [[Ee Evn] | (el & Ee & Be & Hu)].
    + left; split; [exact Ee |]; split.
      * unfold Metrics; cbv zeta; rewrite Evn; reflexivity.
      * unfold PanelAssembly; cbv zeta; cbv [pa_pitchClamped].
        rewrite Ee; reflexivity.
    + right; exists el; split; [exact Ee |]; split; [exact Be |]; split.
      * apply Metrics_same_unit; exact Hu.
      * unfold PanelAssembly; cbv zeta; cbv [pa_pitchClamped].
        rewrite Ee, Math_max_Fin, Math_min_Fin; f_equal.
        destruct (Rltb_spec el 0).
        -- rewrite Rltb_false by lra; rewrite Rmax_right by lra; reflexivity.
        -- rewrite Rltb_false by lra; rewrite Rmax_left by lra; reflexivity.
Qed.

Lemma auto_mode_tracks_sun_witness :
  trackingMode parisState = auto /\
  panel_vector (scene_panel (SolarTrackerSimulator 60 parisState))
  = vector (scene_sun (SolarTrackerSimulator 60 parisState)) /\
  scene_metrics (SolarTrackerSimulator 60 parisState)
  = {| angleDeg := Fin 0; effectiveIrradiance := Fin 1 |}.
Proof.
  split; [reflexivity |].
  destruct (@auto_mode_tracks_sun 60%Z parisState eq_refl)
    as (Hv & _ & [(Ee & _ & _) | (el & _ & _ & Hmet & _)]).
  - exfalso.
    destruct (calculateSunPosition_range parisState_valid)
      as (az & el & _ & _ & Ee' & _).
    change (elevation (scene_sun (SolarTrackerSimulator 60 parisState)))
      with (elevation (calculateSunPosition 60 parisState)) in Ee.
    rewrite Ee' in Ee; discriminate Ee.
  - split; [exact Hv | exact Hmet].
Defined.

End PanelProperties.

Section MetricsProperties.

Local Open Scope R_scope.

(** X15: in manual mode with finite sliders, against a sun direction built
    from a finite azimuth and elevation, the efficiency shown by [Metrics]
    is [max(0, sin el sin p + cos el cos p cos(az - yaw))] and the incidence
    is the arc cosine of the same expression, in degrees. *)
Theorem manual_mode_efficiency
  (state : SolarState) (sun : SunPosition) (az el p y : R) :
  trackingMode state = manual ->
  manualPitch state = Fin p ->
  manualYaw state = Fin y ->
  vector sun = directionOf (degToRad (Fin az)) (degToRad (Fin el)) ->
  let E := el * PI / 180 in
  let P := p * PI / 180 in
  let c := sin E * sin P + cos E * cos P * cos (az * PI / 180 - y * PI / 180) in
  -1 <= c <= 1 /\
  Metrics sun (panel_vector (getPanelNormal state sun))
  = {| angleDeg := Fin (acos c * 180 / PI);
       effectiveIrradiance := Fin (Rmax 0 c) |}.
Proof.
  intros Hm Ep Ey Ev; cbv zeta.
  pose proof (cosZenith_bound (el * PI / 180) (p * PI / 180)
                (az * PI / 180 - y * PI / 180)) as Hc.
  split; [exact Hc |].
  apply Metrics_of_cos; [| exact Hc].
  rewrite getPanelNormal_vector.
  unfold getPanelNormal; cbv zeta; cbv [pitch yaw]; rewrite Hm, Ep, Ey, Ev.
  rewrite !degToRad_Fin, !directionOf_Fin, dot_Fin, cos_minus.
  set (A := az * PI / 180) in *; set (Y := y * PI / 180) in *.
  set (E := el * PI / 180) in *; set (P := p * PI / 180) in *.
  replace (sin A * cos E * (sin Y * cos P) + sin E * sin P
           + cos A * cos E * (cos Y * cos P))
    with (sin E * sin P + cos E * cos P * (cos A * cos Y + sin A * sin Y))
    by ring.
  apply clamp_unit_Fin; rewrite <- cos_minus; exact Hc.
Qed.

Lemma manual_mode_efficiency_witness :
  trackingMode manualInRange = manual /\
  manualPitch manualInRange = Fin 30 /\
  manualYaw manualInRange = Fin 180 /\
  vector (sunFromAngles (Fin 0) (Fin 0) (Fin 0))
  = directionOf (degToRad (Fin 0)) (degToRad (Fin 90)) /\
  exists c,
    effectiveIrradiance
      (Metrics (sunFromAngles (Fin 0) (Fin 0) (Fin 0))
         (panel_vector (getPanelNormal manualInRange
                          (sunFromAngles (Fin 0) (Fin 0) (Fin 0)))))
    = Fin (Rmax 0 c).
Proof.
  assert (Ea : azimuth (sunFromAngles (Fin 0) (Fin 0) (Fin 0)) = Fin 0).
  { rewrite sunFromAngles_azimuth, overhead_zenith_angles.
    apply azimuthOf_degenerate; unfold azDenominatorOf.
    autorewrite with jsnum; rewrite sin_0, Rmult_0_r, Rabs_R0.
    apply Rltb_false; lra. }
  assert (Ev : vector (sunFromAngles (Fin 0) (Fin 0) (Fin 0))
               = directionOf (degToRad (Fin 0)) (degToRad (Fin 90)))
    by (rewrite sunFromAngles_vector, Ea, overhead_elevation; reflexivity).
  split; [reflexivity |]; split; [reflexivity |]; split; [reflexivity |].
  split; [exact Ev |].
  destruct (@manual_mode_efficiency manualInRange
              (sunFromAngles (Fin 0) (Fin 0) (Fin 0)) 0 90 30 180
              eq_refl eq_refl eq_refl Ev) as [_ Hmet].
  eexists; rewrite Hmet; reflexivity.
Defined.

(** X16: for every sun position and every panel normal, [NaN] and infinite
    components included, the two figures of [Metrics] are both [NaN], or the
    incidence is a finite angle of [[0, 180]] degrees and the efficiency a
    finite value of [[0, 1]]; from 90 degrees of incidence on the efficiency
    is 0. *)
Theorem metrics_ranges (sun : SunPosition) (panelNormal : Vector3) :
  (angleDeg (Metrics sun panelNormal) = NaN /\
   effectiveIrradiance (Metrics sun panelNormal) = NaN) \/
  (exists ang eff,
      angleDeg (Metrics sun panelNormal) = Fin ang /\
      effectiveIrradiance (Metrics sun panelNormal) = Fin eff /\
      0 <= ang <= 180 /\ 0 <= eff <= 1 /\
      (90 <= ang -> eff = 0)).
Proof.
  pose proof PI_RGT_0 as Hpi.
  destruct (@clamp_cases (dot (vector sun) panelNormal) (-1) 1 ltac:(lra))
    as [[E _] | [c [E Hc]]].
  - left; unfold Metrics; cbv zeta; cbv [angleDeg effectiveIrradiance].
    rewrite E; split; reflexivity.
  - right; rewrite (Metrics_of_cos sun panelNormal E Hc).
    cbv [angleDeg effectiveIrradiance].
    pose proof (acos_bound c) as Hb.
    assert (Hi : 0 < / PI) by (apply Rinv_0_lt_compat; lra).
    assert (Ei : PI * / PI = 1) by (apply Rinv_r; lra).
    eexists _, _; split; [reflexivity |]; split; [reflexivity |].
    split; [unfold Rdiv; split; nra |].
    split; [split; [apply Rmax_l | apply Rmax_lub; lra] |].
    intros H90.
    assert (Hz : PI / 2 <= acos c) by (unfold Rdiv in *; nra).
    assert (Hcos : cos (acos c) <= cos (PI / 2))
      by (apply cos_decr_1; lra).
    rewrite cos_acos, cos_PI2 in Hcos by exact Hc.
    apply Rmax_left; exact Hcos.
Qed.

Lemma metrics_ranges_witness :
  exists ang eff,
    angleDeg (Metrics upSun (negate (vector upSun))) = Fin ang /\
    effectiveIrradiance (Metrics upSun (negate (vector upSun))) = Fin eff /\
    90 <= ang /\ eff = 0.
Proof.
  pose proof PI_RGT_0 as Hpi.
  assert (Ec : Math_min (Math_max (dot (vector upSun) (negate (vector upSun)))
                           (-1)) 1 = Fin (-1)).
  { change (vector upSun) with (mkVector3 (Fin 0) (Fin 1) (Fin 0)).
    rewrite negate_Fin, dot_Fin.
    match goal with
    | |- Math_min (Math_max (Fin ?x) _) _ = _ => replace x with (-1) by lra
    end.
    apply clamp_unit_Fin; lra. }
  pose proof (@Metrics_of_cos upSun (negate (vector upSun)) (-1) Ec
                ltac:(lra)) as Em.
  destruct (metrics_ranges upSun (negate (vector upSun)))
    as [[E _] | (ang & eff & Ea & Ee & _ & _ & H90)].
  - rewrite Em in E; discriminate E.
  - exists ang, eff; split; [exact Ea |]; split; [exact Ee |].
    assert (Hang : 90 <= ang).
    { rewrite Em in Ea; cbv [angleDeg] in Ea; injection Ea as Ea.
      rewrite <- Ea, acos_m1.
      replace (PI * 180 / PI) with 180 by (field; lra); lra. }
    split; [exact Hang | exact (H90 Hang)].
Defined.

(** X17: the rotation angles of [PanelAssembly].  For a finite yaw the yaw
    in radians is the yaw normalized into [[0, 360)], an angle of
    [[0, 2 PI)]; for a yaw that is [NaN] or infinite it is [NaN].  A finite
    pitch is clamped into [[0, 90]] degrees, [[0, PI / 2]] in radians; an
    infinite pitch is clamped to 90 or to 0; a [NaN] pitch gives [NaN] for
    both.  A pitch of [[0, 90]] is applied unchanged. *)
Theorem panel_assembly_angles (pitch yaw : number) :
  match yaw with
  | Fin y =>
      pa_yawRad (PanelAssembly pitch yaw) = Fin (floorMod y 360 * PI / 180) /\
      0 <= floorMod y 360 * PI / 180 < 2 * PI
  | _ => pa_yawRad (PanelAssembly pitch yaw) = NaN
  end /\
  match pitch with
  | NaN =>
      pa_pitchClamped (PanelAssembly pitch yaw) = NaN /\
      pa_pitchRad (PanelAssembly pitch yaw) = NaN
  | PInf =>
      pa_pitchClamped (PanelAssembly pitch yaw) = Fin 90 /\
      pa_pitchRad (PanelAssembly pitch yaw) = Fin (90 * PI / 180)
  | NInf =>
      pa_pitchClamped (PanelAssembly pitch yaw) = Fin 0 /\
      pa_pitchRad (PanelAssembly pitch yaw) = Fin (0 * PI / 180)
  | Fin p =>
      pa_pitchClamped (PanelAssembly pitch yaw) = Fin (Rmin (Rmax p 0) 90) /\
      pa_pitchRad (PanelAssembly pitch yaw)
      = Fin (Rmin (Rmax p 0) 90 * PI / 180) /\
      0 <= Rmin (Rmax p 0) 90 <= 90 /\
      0 <= Rmin (Rmax p 0) 90 * PI / 180 <= PI / 2
  end /\
  (forall p, pitch = Fin p -> 0 <= p <= 90 ->
             pa_pitchClamped (PanelAssembly pitch yaw) = Fin p).
Proof.
  pose proof PI_RGT_0 as Hpi.
  assert (Hclamp : forall p,
            Math_min (Math_max (Fin p) 0) 90 = Fin (Rmin (Rmax p 0) 90)).
  { intros p; rewrite Math_max_Fin.
    destruct (Rltb_spec p 0).
    - rewrite Math_min_Fin, Rltb_false by lra.
      rewrite (Rmax_right p 0), Rmin_left by lra; reflexivity.
    - rewrite Math_min_Fin, (Rmax_left p 0) by lra.
      destruct (Rltb_spec 90 p).
      + rewrite Rmin_right by lra; reflexivity.
      + rewrite Rmin_left by lra; reflexivity. }
  unfold PanelAssembly; cbv zeta; cbv [pa_yawRad pa_pitchRad pa_pitchClamped].
  split; [| split].
  - destruct yaw as [| | | y]; try reflexivity.
    rewrite normalizeAngle_Fin, degToRad_Fin.
    pose proof (@floorMod_range y 360 ltac:(lra)) as Hr.
    split; [reflexivity | split; nra].
  - destruct pitch as [| | | p].
    + split; reflexivity.
    + assert (E : Math_min (Math_max PInf 0) 90 = Fin 90) by reflexivity.
      rewrite E, degToRad_Fin; split; reflexivity.
    + assert (E : Math_max NInf 0 = Fin 0) by reflexivity.
      rewrite E, Math_min_Fin, Rltb_false, degToRad_Fin by lra.
      split; reflexivity.
    + rewrite Hclamp, degToRad_Fin.
      assert (Hc : 0 <= Rmin (Rmax p 0) 90 <= 90).
      { split.
        - apply Rmin_glb; [apply Rmax_r | lra].
        - apply Rmin_r. }
      split; [reflexivity |]; split; [reflexivity |].
      split; [exact Hc | split; nra].
  - intros p -> Hp.
    rewrite Math_max_Fin, Rltb_false by lra.
    rewrite Math_min_Fin, Rltb_false by lra; reflexivity.
Qed.

Lemma panel_assembly_angles_witness :
  0 <= 30 <= 90 /\ pa_pitchClamped (PanelAssembly (Fin 30) (Fin 180)) = Fin 30.
Proof.
  assert (H : 0 <= 30 <= 90) by lra.
  split; [exact H |].
  exact (proj2 (proj2 (panel_assembly_angles (Fin 30) (Fin 180))) 30 eq_refl H).
Defined.

Lemma sqrt_400 : sqrt 400 = 20.
Proof.
  replace 400 with (20 * 20) by lra; apply sqrt_square; lra.
Qed.

(** X18: the scene built by the component.  The azimuth handed to the sky,
    [(azimuth % 360) / 360], is the azimuth over 360 and lies in [[0, 1)]
    for every input.  The light and the sun sphere are placed at the sun
    vector scaled by 20: all [NaN] when the elevation is [NaN], otherwise at
    distance 20 from the origin. *)
Theorem scene_sky_and_sun (tz : Z) (state : SolarState) :
  let scene := SolarTrackerSimulator tz state in
  (exists az,
      azimuth (scene_sun scene) = Fin az /\
      scene_skyAzimuth scene = Fin (az / 360) /\
      0 <= az / 360 < 1) /\
  ((elevation (scene_sun scene) = NaN /\
    scene_sunPosition scene = mkVector3 NaN NaN NaN) \/
   ((exists el, elevation (scene_sun scene) = Fin el) /\
    length (scene_sunPosition scene) = Fin 20)).
Proof.
  cbv zeta; unfold SolarTrackerSimulator; cbv zeta.
  cbv [scene_sun scene_skyAzimuth scene_sunPosition].
  destruct (calculateSunPosition_angles tz state) as (h & l & d & _ & ->).
  split.
  - destruct (azimuthOf_range l d h) as [az [Ea Ba]].
    exists az; rewrite sunFromAngles_azimuth, Ea.
    split; [reflexivity |].
    rewrite rem_Fin, remR_small, div_Fin by lra.
    split; [reflexivity | lra].
  - destruct (sunFromAngles_total h l d) as [[Ee Ev] | (el & Ee & _ & Hu)].
    + left; rewrite Ev; split; [exact Ee | reflexivity].
    + right; split; [exists el; exact Ee |].
      destruct Hu as (x & y & z & Ev & Hn); rewrite Ev.
      unfold multiplyScalar, length; cbv [vx vy vz]; fin_arith.
      replace (x * 20 * (x * 20) + y * 20 * (y * 20) + z * 20 * (z * 20))
        with (400 * (x * x + y * y + z * z)) by ring.
      rewrite Hn, Rmult_1_r.
      unfold Math_sqrt; rewrite Rltb_false by lra.
      rewrite sqrt_400; reflexivity.
Qed.

End MetricsProperties.

(* ================================================================= *)
(** ** Further properties: the Julian Day *)

Section JulianDayProperties.

Local Open Scope R_scope.

Lemma year_of_era (doe : Z) :
  (0 <= doe < 146097)%Z ->
  let yoe := ((doe - doe / 1460 + doe / 36524 - doe / 146096) / 365)%Z in
  (0 <= yoe <= 399 /\ 0 <= doe - (365 * yoe + yoe / 4 - yoe / 100) <= 365)%Z.
Proof.
  intros H; cbv zeta.
  Z.div_mod_to_equations; lia.
Qed.

Lemma month_of_doy (doy : Z) :
  (0 <= doy <= 365)%Z ->
  let mp := ((5 * doy + 2) / 153)%Z in
  (0 <= mp <= 11 /\ 1 <= doy - (153 * mp + 2) / 5 + 1 <= 31)%Z.
Proof.
  intros H; cbv zeta.
  Z.div_mod_to_equations; lia.
Qed.

(** The calendar date of a day count gives the day count back. *)
Lemma daysFromCivil_civilFromDays (z : Z) :
  daysFromCivil (fst (fst (civilFromDays z))) (snd (fst (civilFromDays z)))
                (snd (civilFromDays z)) = z /\
  (1 <= snd (fst (civilFromDays z)) <= 12)%Z /\
  (1 <= snd (civilFromDays z) <= 31)%Z.
Proof.
  unfold civilFromDays; cbv zeta; cbn [fst snd].
  set (z' := (z + 719468)%Z).
  set (era := (z' / 146097)%Z).
  set (doe := (z' - era * 146097)%Z).
  assert (Hdoe : (0 <= doe < 146097)%Z)
    by (unfold doe, era; Z.div_mod_to_equations; lia).
  destruct (@year_of_era doe Hdoe) as [Hy Hdoy].
  set (yoe := ((doe - doe / 1460 + doe / 36524 - doe / 146096) / 365)%Z) in *.
  set (doy := (doe - (365 * yoe + yoe / 4 - yoe / 100))%Z) in *.
  destruct (@month_of_doy doy Hdoy) as [Hmp Hd].
  set (mp := ((5 * doy + 2) / 153)%Z) in *.
  set (d := (doy - (153 * mp + 2) / 5 + 1)%Z) in *.
  assert (Hm : (1 <= (if (mp <? 10)%Z then mp + 3 else mp - 9) <= 12)%Z)
    by (destruct (Z.ltb_spec mp 10); lia).
  split; [| split; assumption].
  unfold daysFromCivil; cbv zeta.
  destruct (Z.ltb_spec mp 10) as [H10 | H10].
  - replace (mp + 3 <=? 2)%Z with false by (symmetry; apply Z.leb_gt; lia).
    replace (2 <? mp + 3)%Z with true by (symmetry; apply Z.ltb_lt; lia).
    replace (mp + 3 - 3)%Z with mp by lia.
    replace ((yoe + era * 400) / 400)%Z with era
      by (Z.div_mod_to_equations; lia).
    replace (yoe + era * 400 - era * 400)%Z with yoe by lia.
    unfold d, doy, doe, z'; lia.
  - replace (mp - 9 <=? 2)%Z with true by (symmetry; apply Z.leb_le; lia).
    replace (2 <? mp - 9)%Z with false by (symmetry; apply Z.ltb_ge; lia).
    replace (mp - 9 + 9)%Z with mp by lia.
    replace (yoe + era * 400 + 1 - 1)%Z with (yoe + era * 400)%Z by lia.
    replace ((yoe + era * 400) / 400)%Z with era
      by (Z.div_mod_to_equations; lia).
    replace (yoe + era * 400 - era * 400)%Z with yoe by lia.
    unfold d, doy, doe, z'; lia.
Qed.

(** The integer formula of lines 60-70 against the day count of the epoch. *)
Lemma julianDayNumberZ_daysFromCivil (y m d : Z) :
  (1 <= m <= 12)%Z ->
  julianDayNumberZ y m d = (daysFromCivil y m d + 2440588)%Z.
Proof.
  intros Hm; unfold julianDayNumberZ, daysFromCivil; cbv zeta.
  destruct (Z.leb_spec m 2) as [H2 | H2].
  - replace (2 <? m)%Z with false by (symmetry; apply Z.ltb_ge; lia).
    replace ((14 - m) / 12)%Z with 1%Z by (Z.div_mod_to_equations; lia).
    replace (m + 12 * 1 - 3)%Z with (m + 9)%Z by lia.
    set (q := ((153 * (m + 9) + 2) / 5)%Z).
    Z.div_mod_to_equations; lia.
  - replace (2 <? m)%Z with true by (symmetry; apply Z.ltb_lt; lia).
    replace ((14 - m) / 12)%Z with 0%Z by (Z.div_mod_to_equations; lia).
    replace (m + 12 * 0 - 3)%Z with (m - 3)%Z by lia.
    set (q := ((153 * (m - 3) + 2) / 5)%Z).
    Z.div_mod_to_equations; lia.
Qed.

Lemma julianDayNumberZ_of_time (t : Z) :
  julianDayNumberZ (YearFromTime t) (MonthFromTime t + 1) (DateFromTime t)
  = (t / msPerDay + 2440588)%Z.
Proof.
  unfold YearFromTime, MonthFromTime, DateFromTime.
  destruct (daysFromCivil_civilFromDays (t / msPerDay)) as (E & Hm & _).
  replace (snd (fst (civilFromDays (t / msPerDay))) - 1 + 1)%Z
    with (snd (fst (civilFromDays (t / msPerDay)))) by lia.
  rewrite julianDayNumberZ_daysFromCivil by exact Hm.
  rewrite E; reflexivity.
Qed.

Lemma minutes_of_time (t : Z) :
  (t / msPerMinute
   = 1440 * (t / msPerDay) + 60 * HourFromTime t + MinFromTime t)%Z.
Proof.
  unfold HourFromTime, MinFromTime, msPerMinute, msPerHour, msPerDay.
  Z.div_mod_to_equations; lia.
Qed.

(** X19: the Julian Day Number that lines 56-70 compute from the UTC
    getters of a valid date is the day count of its time value since the
    epoch plus 2440588, for every time value: it advances by one per UTC
    day across months, years and leap days. *)
Theorem julianDay_is_day_count (t : Z) :
  julianDayOf (Some t) = Fin (IZR (t / msPerDay + 2440588)) /\
  julianDayOf (Some (t + msPerDay)%Z)
  = (julianDayOf (Some t) + 1)%js.
Proof.
  rewrite !julianDayOf_Some, !julianDayNumberZ_of_time.
  split; [reflexivity |].
  rewrite add_Fin; f_equal.
  replace ((t + msPerDay) / msPerDay)%Z with (t / msPerDay + 1)%Z
    by (unfold msPerDay; Z.div_mod_to_equations; lia).
  rewrite !plus_IZR; lra.
Qed.

Lemma julianDayWithTimeOf_closed (t : Z) (off : R) :
  julianDayWithTimeOf (Some t) (Fin off)
  = Fin (IZR (t / msPerMinute) / 1440 + 2440587.5 - off / 24).
Proof.
  rewrite julianDayWithTimeOf_Some, julianDayNumberZ_of_time, minutes_of_time.
  f_equal.
  rewrite !plus_IZR, !mult_IZR; lra.
Qed.

(** X20: the Julian Day of lines 72-75 on a valid date and a finite offset
    is the Julian date of the UTC minute the date falls in, less the offset
    in days: [minutes since the epoch / 1440 + 2440587.5 - utcOffset / 24].
    Seconds and milliseconds of the date do not enter. *)
Theorem julianDayWithTime_closed_form (t : Z) (off : R) :
  julianDayWithTimeOf (Some t) (Fin off)
  = Fin (IZR (t / msPerMinute) / 1440 + 2440587.5 - off / 24) /\
  (forall t', (t' / msPerMinute = t / msPerMinute)%Z ->
     julianDayWithTimeOf (Some t') (Fin off)
     = julianDayWithTimeOf (Some t) (Fin off)).
Proof.
  split; [apply julianDayWithTimeOf_closed |].
  intros t' E; rewrite !julianDayWithTimeOf_closed, E; reflexivity.
Qed.

Lemma julianDayWithTime_closed_form_witness :
  ((1718971230000 / msPerMinute)%Z = (1718971200000 / msPerMinute)%Z) /\
  julianDayWithTimeOf (Some 1718971230000%Z) (Fin 1)
  = julianDayWithTimeOf (Some 1718971200000%Z) (Fin 1).
Proof.
  assert (E : (1718971230000 / msPerMinute)%Z
              = (1718971200000 / msPerMinute)%Z) by reflexivity.
  split; [exact E |].
  exact (proj2 (julianDayWithTime_closed_form 1718971200000 1)
           1718971230000%Z E).
Defined.

Lemma parseDateTime_month (s : string) (f : Fields) :
  parseDateTime s = Some f -> (1 <= f_month f <= 12)%Z.
Proof.
  unfold parseDateTime.
  destruct (list_ascii_of_string s) as [| c l]; [discriminate |].
  do 18 (destruct l as [| ? l]; [discriminate |]).
  destruct l; [| discriminate].
  match goal with |- context [if ?b then _ else _] => destruct b end;
    [| discriminate].
  repeat match goal with
         | |- context [digits 0 ?cs] =>
             let E := fresh "E" in
             destruct (digits 0 cs) eqn:E; [| discriminate]
         end.
  cbv zeta.
  match goal with |- context [validFields ?g] =>
    destruct (validFields g) eqn:V end; [| discriminate].
  intros H; injection H as <-.
  unfold validFields in V; cbn [f_hour f_minute f_second f_month f_day f_year] in *.
  repeat (apply andb_true_iff in V; destruct V as [V ?]).
  repeat match goal with
         | H : (_ <=? _)%Z = true |- _ => apply Z.leb_le in H
         end.
  lia.
Qed.

(** X21: how the host's zone enters, on a host whose zone is a fixed
    offset of [tz] minutes east of UTC (a zone without daylight-saving
    transitions).  For a stamp in the date-time format, the minutes of the
    day of lines 53-54 are the hour and minute as typed, whatever [tz],
    while the Julian Day of lines 56-75 is the formula on the fields as
    typed less the host's offset, [tz / 1440] days: the two agree on the
    instant only when [tz] is 0. *)
Theorem host_zone_shifts_julianDay
  (tz t : Z) (s : string) (f : Fields) (off : R) :
  parseDateTime s = Some f ->
  newDate tz s = Some t ->
  (f_hour f < 24)%Z ->
  totalMinutesOf tz (newDate tz s)
  = Fin (IZR (f_hour f) * 60 + IZR (f_minute f) + IZR (f_second f) / 60) /\
  julianDayWithTimeOf (newDate tz s) (Fin off)
  = Fin (IZR (julianDayNumberZ (f_year f) (f_month f) (f_day f))
         + (IZR (f_hour f) - off + IZR (f_minute f) / 60) / 24 - 0.5
         - IZR tz / 1440).
Proof.
  intros Ep Et Hh.
  split; [apply (@totalMinutesOf_host_independent tz t s f Ep Et Hh) |].
  destruct (@parseDateTime_bounds s f Ep) as (_ & _ & [Hs0 Hs1]).
  pose proof (@parseDateTime_month s f Ep) as Hm.
  rewrite Et, julianDayWithTimeOf_closed.
  rewrite (@newDate_host_zone tz s f Ep) in Et; unfold TimeClip in Et.
  destruct (Z.abs (localTimeValue f - tz * msPerMinute) <=? 8640000000000000)%Z;
    [injection Et as Et | discriminate].
  rewrite julianDayNumberZ_daysFromCivil by exact Hm.
  assert (Emin : (t / msPerMinute
                  = 1440 * daysFromCivil (f_year f) (f_month f) (f_day f)
                    + 60 * f_hour f + f_minute f - tz)%Z).
  { rewrite <- Et; unfold localTimeValue, msPerDay, msPerHour, msPerMinute.
    set (D := daysFromCivil (f_year f) (f_month f) (f_day f)).
    symmetry.
    apply (Z.div_unique _ 60000 _ (f_second f * 1000)); lia. }
  rewrite Emin; f_equal.
  rewrite !minus_IZR, !plus_IZR, !mult_IZR; lra.
Qed.

Lemma host_zone_shifts_julianDay_witness :
  parseDateTime "2024-06-21T13:00:00" = Some (mkFields 2024 6 21 13 0 0) /\
  newDate 60 "2024-06-21T13:00:00" = Some 1718971200000%Z /\
  julianDayWithTimeOf (newDate 60 "2024-06-21T13:00:00") (Fin 1)
  = Fin (IZR (julianDayNumberZ 2024 6 21)
         + (IZR 13 - 1 + IZR 0 / 60) / 24 - 0.5 - IZR 60 / 1440).
Proof.
  assert (Ep : parseDateTime "2024-06-21T13:00:00"
               = Some (mkFields 2024 6 21 13 0 0)) by reflexivity.
  split; [exact Ep |]; split; [exact newDate_paris_cet |].
  exact (proj2 (@host_zone_shifts_julianDay 60%Z 1718971200000%Z
                  "2024-06-21T13:00:00" (mkFields 2024 6 21 13 0 0) 1
                  Ep newDate_paris_cet eq_refl)).
Defined.

End JulianDayProperties.

(* ================================================================= *)
(** ** Further properties: the longitude *)

Section LongitudeProperties.

Local Open Scope R_scope.



End LongitudeProperties.
